(** * pycleanfiles: a shallow embedding of [clean.py]

    The script inventories folder sizes with [du], parses the grouped output
    of [fdupes] into (original, duplicate, size) triples and removes browser
    multi-save copies.  Every function of [clean.py] that carries logic is
    rendered here as a Gallina function, and the properties of the
    specification are stated over those functions.

    Conventions of the embedding.
    - A Python [str] is a [string]; a character is a code point in the range
      U+0000..U+00FF.  The character classes ([str.isdigit], [str.strip]'s
      whitespace, the regex classes) are the Unicode ones restricted to that
      range.
    - A Python [int] is a [Z].  The interpreter's optional cap on the number
      of digits in int/str conversions is not part of the model.
    - A Python [float] is a binary64 [spec_float].
    - A raised exception is the [Raise] case of [result].
    - Sub-processes and the file system are parameters of the functions
      that consult them; failures of the operating system other than the
      ones the script handles or a missing file are not modelled. *)

From Stdlib Require Import ZArith List String Ascii Bool Lia.
From Stdlib Require Import DecimalString DecimalPos Permutation Sorted.
From Stdlib Require Import Floats.SpecFloat.
From stdpp Require Import gmap strings.

Import ListNotations.
Local Open Scope string_scope.
Local Open Scope Z_scope.

(** ** Characters and strings *)

Module PyStr.

Definition code (c : ascii) : N := N_of_ascii c.

Definition between (lo hi : N) (c : ascii) : bool :=
  ((lo <=? code c) && (code c <=? hi))%N.

(** [str.isdigit] for one character: 0-9 and the superscripts 1, 2, 3. *)
Definition isdigit (c : ascii) : bool :=
  between 48 57 c || (code c =? 178)%N || (code c =? 179)%N
  || (code c =? 185)%N.

(** The characters removed by [str.strip()]. *)
Definition isspace (c : ascii) : bool :=
  between 9 13 c || between 28 32 c || (code c =? 133)%N
  || (code c =? 160)%N.

Section Strip.
Variable cls : ascii -> bool.

Fixpoint lstrip_by (s : string) : string :=
  match s with
  | String c s' => if cls c then lstrip_by s' else s
  | EmptyString => EmptyString
  end.

Fixpoint rstrip_by (s : string) : string :=
  match s with
  | String c s' =>
      match rstrip_by s' with
      | EmptyString => if cls c then EmptyString else String c EmptyString
      | r => String c r
      end
  | EmptyString => EmptyString
  end.

Definition strip_by (s : string) : string := rstrip_by (lstrip_by s).
End Strip.

(** [s.strip()] *)
Definition strip (s : string) : string := strip_by isspace s.

(** Truth value of a string: non-empty. *)
Definition truthy (s : string) : bool :=
  match s with EmptyString => false | _ => true end.

(** [s.split(sep)] for a one-character separator. *)
Fixpoint split (sep : ascii) (s : string) : list string :=
  match s with
  | EmptyString => [EmptyString]
  | String c s' =>
      if Ascii.eqb c sep then EmptyString :: split sep s'
      else match split sep s' with
           | h :: t => String c h :: t
           | [] => [String c EmptyString]
           end
  end.

Fixpoint startswith (p s : string) : option string :=
  match p, s with
  | EmptyString, _ => Some s
  | String a p', String b s' =>
      if Ascii.eqb a b then startswith p' s' else None
  | String _ _, EmptyString => None
  end.

(** [sub in s]. *)
Fixpoint contains (sub s : string) : bool :=
  match startswith sub s with
  | Some _ => true
  | None => match s with
            | String _ s' => contains sub s'
            | EmptyString => false
            end
  end.

(** [int(s)] for a string of ASCII decimal digits. *)
Definition digit_value (c : ascii) : Z := Z.of_N (code c) - 48.

Fixpoint int_of_digits_from (acc : Z) (s : string) : Z :=
  match s with
  | EmptyString => acc
  | String c s' => int_of_digits_from (10 * acc + digit_value c) s'
  end.

Definition int_of_digits (s : string) : Z := int_of_digits_from 0 s.

(** [int(s)] for any string: surrounding whitespace, an optional sign,
    decimal digits with single underscores between them.  The whitespace
    [int] skips is narrower than that of [strip]: the separators
    U+001C..U+001F are not skipped. *)
Definition isdecimal (c : ascii) : bool := between 48 57 c.

Definition int_space (c : ascii) : bool :=
  between 9 13 c || (code c =? 32)%N || (code c =? 133)%N
  || (code c =? 160)%N.

Fixpoint digits_ok (after_digit : bool) (s : string) : bool :=
  match s with
  | EmptyString => after_digit
  | String c s' =>
      if isdecimal c then digits_ok true s'
      else if Ascii.eqb c "_" then after_digit && digits_ok false s'
      else false
  end.

Fixpoint drop_underscores (s : string) : string :=
  match s with
  | EmptyString => EmptyString
  | String c s' =>
      if Ascii.eqb c "_" then drop_underscores s'
      else String c (drop_underscores s')
  end.

Definition int (s : string) : option Z :=
  let '(sign, body) :=
    match strip_by int_space s with
    | String "-" r => (-1, r)
    | String "+" r => (1, r)
    | r => (1, r)
    end in
  if digits_ok false body
  then Some (sign * int_of_digits (drop_underscores body))
  else None.

(** [str(n)] for an integer. *)
Definition of_int (n : Z) : string := NilZero.string_of_int (Z.to_int n).

End PyStr.

(** ** Regular expressions

    The two patterns of the script are written with the combinators below,
    which implement the backtracking search of Python's [re]: a greedy [+]
    first tries to take one more character and falls back to stopping. *)

Module Re.

Section Combinators.
Context {R : Type}.

(** [c+] for a character class [c], greedy, then the continuation on the
    matched text and on the remainder. *)
Fixpoint plus (cls : ascii -> bool) (s : string) (acc : string)
         (k : string -> string -> option R) : option R :=
  match s with
  | String c s' =>
      if cls c then
        match plus cls s' (acc ++ String c EmptyString) k with
        | Some r => Some r
        | None => k (acc ++ String c EmptyString) s'
        end
      else None
  | EmptyString => None
  end.

(** A literal. *)
Definition lit (l : string) (s : string) (k : string -> option R)
  : option R :=
  match PyStr.startswith l s with
  | Some rest => k rest
  | None => None
  end.

(** [$] outside MULTILINE mode: at the end, or before a final newline. *)
Definition at_end (s : string) (k : option R) : option R :=
  match s with
  | EmptyString => k
  | String c EmptyString => if Ascii.eqb c "010"%char then k else None
  | _ => None
  end.

(** [re.search]: the leftmost position at which [m] matches. *)
Fixpoint search (m : string -> option R) (s : string) : option R :=
  match m s with
  | Some r => Some r
  | None => match s with
            | String _ s' => search m s'
            | EmptyString => None
            end
  end.
End Combinators.

(** [\d] on the modelled range. *)
Definition digit (c : ascii) : bool := PyStr.between 48 57 c.
(** [.] : anything but a newline. *)
Definition dot (c : ascii) : bool := negb (Ascii.eqb c "010"%char).
(** [[^.]] *)
Definition not_period (c : ascii) : bool := negb (Ascii.eqb c "."%char).

(** [re.search(r'(\d+) bytes', line)], returning group 1. *)
Definition bytes_pattern (line : string) : option string :=
  search (fun s =>
    plus digit s EmptyString (fun g1 r1 =>
    lit " bytes" r1 (fun _ => Some g1))) line.

(** [re.compile(r'^(.+) \(\d+\)(\.[^.]+)$').match(name)], returning
    groups 1 and 2. *)
Definition multi_save_pattern (name : string) : option (string * string) :=
  plus dot name EmptyString (fun g1 r1 =>
  lit " (" r1 (fun r2 =>
  plus digit r2 EmptyString (fun _ r3 =>
  lit ")" r3 (fun r4 =>
  lit "." r4 (fun r5 =>
  plus not_period r5 EmptyString (fun e r6 =>
  at_end r6 (Some (g1, String "."%char e)))))))).

End Re.

(** ** Paths

    [pathlib.Path] on a POSIX system: the root ([""], ["/"] or ["//"]) and
    the components that remain once empty ones and ["."] are dropped. *)

Module Path.

Record t : Type := mk { root : string; parts : list string }.

#[global] Instance eq_dec : EqDecision t.
Proof. solve_decision. Defined.

Definition splitroot (p : string) : string * string :=
  match p with
  | String "/" (String "/" (String "/" r)) =>
      ("/", String "/"%char (String "/"%char r))
  | String "/" (String "/" r) => ("//", r)
  | String "/" r => ("/", r)
  | _ => ("", p)
  end.

Definition keep_part (x : string) : bool :=
  PyStr.truthy x && negb (String.eqb x ".").

(** [Path(s)] *)
Definition of_str (s : string) : t :=
  let '(r, rel) := splitroot s in
  mk r (List.filter keep_part (PyStr.split "/" rel)).

(** [path.name] *)
Definition name (p : t) : string := List.last (parts p) "".

(** [str(path)] *)
Definition to_str (p : t) : string :=
  match root p, parts p with
  | EmptyString, [] => "."
  | r, ps => r ++ String.concat "/" ps
  end.

End Path.

(** ** Exceptions and results *)

Inductive exn : Type :=
| FileNotFoundError (msg : string)
| RuntimeError (msg : string)
| ValueError (msg : string)
| OverflowError (msg : string)
| ZeroDivisionError (msg : string)
| OSError (msg : string).

Inductive result (A : Type) : Type :=
| Return (a : A)
| Raise (e : exn).

Arguments Return {A} a.
Arguments Raise {A} e.

Definition bind {A B : Type} (r : result A) (k : A -> result B) : result B :=
  match r with
  | Return a => k a
  | Raise e => Raise e
  end.

Notation "'let*' x ':=' r 'in' k" := (bind r (fun x => k))
  (at level 10, x pattern, r at level 200, k at level 200).

(** [subprocess.CompletedProcess] with captured text output. *)
Record CompletedProcess : Type :=
  { returncode : Z; stdout : string; stderr : string }.

(** ** [list.sort(key=..., reverse=True)]

    Python's sort is stable, also under [reverse=True]: among entries with
    equal keys the earlier one stays first.  Any stable sort computes the
    same list; it is written here as an insertion sort. *)

Section SortDesc.
Context {A : Type} (key : A -> Z).

Fixpoint insert_desc (x : A) (l : list A) : list A :=
  match l with
  | [] => [x]
  | y :: l' => if key x <? key y then y :: insert_desc x l' else x :: l
  end.

Fixpoint sort_desc (l : list A) : list A :=
  match l with
  | [] => []
  | x :: l' => insert_desc x (sort_desc l')
  end.
End SortDesc.

(** ** The duplicate-group parser: [find_duplicates_below] *)

Definition triple : Type := Path.t * Path.t * Z.

Module Parser.

(** The three loop variables. *)
Record state : Type :=
  { duplicates : list triple;
    current_group : list Path.t;
    current_size : Z }.

Definition init : state :=
  {| duplicates := []; current_group := []; current_size := 0 |}.

(** [for i in range(len(g) - 1): append((g[0], g[i+1], size))] *)
Definition flush (g : list Path.t) (size : Z) : list triple :=
  match g with
  | [] => []
  | g0 :: _ =>
      List.map (fun i => (g0, List.nth (i + 1) g g0, size))
               (List.seq 0 (List.length g - 1))
  end.

(** [line[0].isdigit()], on a non-empty line. *)
Definition first_isdigit (line : string) : bool :=
  match line with
  | String c _ => PyStr.isdigit c
  | EmptyString => false
  end.

(** One iteration of the loop over the lines. *)
Definition step (st : state) (line : string) : state :=
  if PyStr.truthy (PyStr.strip line) then
    if first_isdigit line then
      let st1 :=
        match current_group st with
        | [] => st
        | g =>
            {| duplicates := duplicates st ++ flush g (current_size st);
               current_group := [];
               current_size := current_size st |}
        end in
      match Re.bytes_pattern line with
      | Some g1 =>
          {| duplicates := duplicates st1;
             current_group := current_group st1;
             current_size := PyStr.int_of_digits g1 / 1024 |}
      | None => st1
      end
    else
      {| duplicates := duplicates st;
         current_group :=
           current_group st ++ [Path.of_str (PyStr.strip line)];
         current_size := current_size st |}
  else st.

Definition run (st : state) (lines : list string) : state :=
  List.fold_left step lines st.

(** The triples once the last group has been processed. *)
Definition finish (st : state) : list triple :=
  match current_group st with
  | [] => duplicates st
  | g => duplicates st ++ flush g (current_size st)
  end.

Definition size_of (t : triple) : Z := snd t.

(** Everything after the error check: parse [stdout], then sort. *)
Definition parse (out : string) : list triple :=
  sort_desc size_of (finish (run init (PyStr.split "010" out))).

End Parser.

Section FindDuplicates.
Variable resolve : Path.t -> Path.t.
Variable run : string -> CompletedProcess.

Definition fdupes_cmd (root_dir : Path.t) (min_size_in_kb : Z) : string :=
  "fdupes -r -S -G " ++ PyStr.of_int (min_size_in_kb * 100) ++ " '"
    ++ Path.to_str root_dir ++ "'".

Definition find_duplicates_below (root_dir : Path.t) (min_size_in_kb : Z)
  : result (list triple) :=
  let root_dir := resolve root_dir in
  let result := run (fdupes_cmd root_dir min_size_in_kb) in
  if negb (returncode result =? 0) then
    if PyStr.contains "command not found" (stderr result) then
      Raise (FileNotFoundError
        "fdupes command not found. Please install fdupes to use this function.")
    else
      Raise (RuntimeError ("Failed to run fdupes: " ++ stderr result))
  else
    Return (Parser.parse (stdout result)).
End FindDuplicates.

(** ** The multi-save matcher: [find_browser_multi_saves] *)

Module MultiSave.

Record state : Type :=
  { original_names : gmap string Path.t;
    multi_saves : list Path.t }.

Definition init : state :=
  {| original_names := ∅; multi_saves := [] |}.

(** One iteration of the loop over [file_paths]. *)
Definition step (st : state) (path : Path.t) : state :=
  let name := Path.name path in
  match Re.multi_save_pattern name with
  | Some (g1, g2) =>
      let original_name := g1 ++ g2 in
      match original_names st !! original_name with
      | Some _ =>
          {| original_names := original_names st;
             multi_saves := multi_saves st ++ [path] |}
      | None =>
          {| original_names := <[name := path]> (original_names st);
             multi_saves := multi_saves st |}
      end
  | None =>
      {| original_names := <[name := path]> (original_names st);
         multi_saves := multi_saves st |}
  end.

Definition run (st : state) (file_paths : list Path.t) : state :=
  List.fold_left step file_paths st.

End MultiSave.

Definition find_browser_multi_saves (file_paths : list Path.t)
  : list Path.t :=
  MultiSave.multi_saves (MultiSave.run MultiSave.init file_paths).

(** ** Floats and the size formatter: [convert_size] *)

Module PyFloat.

Definition prec : Z := 53.
Definition emax : Z := 1024.

(** [a / b] on two integers: the exact quotient rounded once to the
    nearest binary64, ties to even. *)
Definition int_truediv (a b : Z) : result spec_float :=
  if b =? 0 then Raise (ZeroDivisionError "division by zero")
  else
    let s := xorb (a <? 0) (b <? 0) in
    if a =? 0 then Return (S754_zero s)
    else
      let '(q, e, l) :=
        SFdiv_core_binary prec emax (Z.abs a) 0 (Z.abs b) 0 in
      match binary_round_aux prec emax s q e l with
      | S754_infinity _ =>
          Raise (OverflowError
                   "integer division result too large for a float")
      | f => Return f
      end.

(** [float(n)] as done for the integer operand of a mixed operation. *)
Definition of_int (n : Z) : result spec_float :=
  match binary_normalize prec emax n 0 false with
  | S754_infinity _ =>
      Raise (OverflowError "int too large to convert to float")
  | f => Return f
  end.

(** [x / n] for a float [x] and an integer [n]. *)
Definition truediv_int (x : spec_float) (n : Z) : result spec_float :=
  let* y := of_int n in
  match y with
  | S754_zero _ => Raise (ZeroDivisionError "float division by zero")
  | _ => Return (SFdiv prec emax x y)
  end.

(** [num / den] rounded to the nearest integer, ties to even. *)
Definition div_half_even (num den : Z) : Z :=
  let q := num / den in
  let r := num mod den in
  match 2 * r ?= den with
  | Lt => q
  | Gt => q + 1
  | Eq => if Z.even q then q else q + 1
  end.

(** The absolute value of a finite float in hundredths, rounded to the
    nearest, ties to even: the digits printed by format [.2f]. *)
Definition hundredths (m : positive) (e : Z) : Z :=
  if 0 <=? e then Z.pos m * 2 ^ e * 100
  else div_half_even (Z.pos m * 100) (2 ^ (- e)).

End PyFloat.

Module Format.

(** Digit grouping of the [,] format option, on reversed digits. *)
Fixpoint group_rev (n : nat) (l : list ascii) : list ascii :=
  match l with
  | [] => []
  | c :: l' =>
      match n with
      | 3%nat => ","%char :: c :: group_rev 1 l'
      | _ => c :: group_rev (S n) l'
      end
  end.

Definition thousands (digits : string) : string :=
  string_of_list_ascii
    (List.rev (group_rev 0 (List.rev (list_ascii_of_string digits)))).

Definition sign_str (negative : bool) : string :=
  if negative then "-" else "".

(** [f"{n:,}"] for an integer. *)
Definition int_comma (n : Z) : string :=
  sign_str (n <? 0) ++ thousands (PyStr.of_int (Z.abs n)).

Definition two_digits (r : Z) : string :=
  if r <? 10 then "0" ++ PyStr.of_int r else PyStr.of_int r.

(** A count of hundredths as [i.ff] with grouped integer digits. *)
Definition fixed2 (negative : bool) (h : Z) : string :=
  sign_str negative ++ thousands (PyStr.of_int (h / 100)) ++ "."
    ++ two_digits (h mod 100).

(** [f"{x:,.2f}"] for a float. *)
Definition float_comma_2f (x : spec_float) : string :=
  match x with
  | S754_zero s => fixed2 s 0
  | S754_finite s m e => fixed2 s (PyFloat.hundredths m e)
  | S754_infinity s => sign_str s ++ "inf"
  | S754_nan => "nan"
  end.

End Format.

Definition convert_size (size_in_kb : Z) (units : string) : result string :=
  if String.eqb units "KB" then
    Return (Format.int_comma size_in_kb ++ " KB")
  else if String.eqb units "MB" then
    let* x := PyFloat.int_truediv size_in_kb 1024 in
    Return (Format.float_comma_2f x ++ " MB")
  else if String.eqb units "GB" then
    let* x := PyFloat.int_truediv size_in_kb 1024 in
    let* y := PyFloat.truediv_int x 1024 in
    Return (Format.float_comma_2f y ++ " GB")
  else
    Raise (ValueError ("Invalid unit: " ++ units)).

(** ** The deletion loop at the end of the script

    The file system is a map from the paths of existing files to their
    size in bytes.  [stat] fails on a missing file; [unlink] of an existing
    file succeeds.  The text printed by the loop, and the total printed
    after it, are left out; the call of [convert_size] inside the loop is
    kept, since it can raise. *)

Module Cleanup.

Record state : Type :=
  { files : Path.t -> option Z;
    deleted_amount : Z }.

Definition unlink (s : Path.t) (fs : Path.t -> option Z)
  : Path.t -> option Z :=
  fun q => if decide (q = s) then None else fs q.

(** [for s in multi_saves: deleted_amount += s.stat().st_size; s.unlink()];
    the state reached, and the exception that stopped the loop if any. *)
Fixpoint delete_all (multi_saves : list Path.t) (st : state)
  : state * option exn :=
  match multi_saves with
  | [] => (st, None)
  | s :: rest =>
      match files st s with
      | None =>
          (st, Some (FileNotFoundError
                       ("No such file or directory: " ++ Path.to_str s)))
      | Some size =>
          delete_all rest
            {| files := unlink s (files st);
               deleted_amount := deleted_amount st + size |}
      end
  end.

(** The body of [for duplicate in duplicates]. *)
Definition body (st : state) (duplicate : triple) : state * option exn :=
  let '(original, dup, size) := duplicate in
  match find_browser_multi_saves [original; dup] with
  | [] => (st, None)
  | multi_saves =>
      match convert_size size "MB" with
      | Raise e => (st, Some e)
      | Return _ => delete_all multi_saves st
      end
  end.

Fixpoint loop (duplicates : list triple) (st : state)
  : state * option exn :=
  match duplicates with
  | [] => (st, None)
  | d :: rest =>
      match body st d with
      | (st', None) => loop rest st'
      | stopped => stopped
      end
  end.

End Cleanup.

(** ** The folder inventory: [find_largest_folders] *)

Section FindLargestFolders.
Variable resolve : Path.t -> Path.t.
Variable iterdir : Path.t -> result (list Path.t).
Variable is_dir : Path.t -> bool.
Variable run : string -> CompletedProcess.

(** [subprocess.run(..., check=True)] raises [CalledProcessError] on a
    non-zero exit; the handler returns the sentinel. *)
Definition get_folder_size (folder : Path.t) : result (Path.t * Z) :=
  let result := run ("du -sk " ++ Path.to_str folder) in
  if negb (returncode result =? 0) then Return (folder, -1)
  else
    match PyStr.split "009" (stdout result) with
    | [size; _] =>
        match PyStr.int size with
        | Some n => Return (folder, n)
        | None =>
            Raise (ValueError
                     ("invalid literal for int() with base 10: " ++ size))
        end
    | _ => Raise (ValueError "wrong number of values to unpack")
    end.

(** The loop over [root_dir.iterdir()]; only [RuntimeError] is caught. *)
Fixpoint collect (items : list Path.t) (folder_sizes : list (Path.t * Z))
  : result (list (Path.t * Z)) :=
  match items with
  | [] => Return folder_sizes
  | item :: rest =>
      if is_dir item then
        match get_folder_size item with
        | Return entry => collect rest (folder_sizes ++ [entry])
        | Raise (RuntimeError _) => collect rest folder_sizes
        | Raise e => Raise e
        end
      else collect rest folder_sizes
  end.

Definition find_largest_folders (root_dir : Path.t)
  : result (list (Path.t * Z)) :=
  let root_dir := resolve root_dir in
  let* items := iterdir root_dir in
  let* folder_sizes := collect items [] in
  Return (sort_desc snd folder_sizes).
End FindLargestFolders.

(** ** Vocabulary of the statements *)

(** How the parser's loop treats a line: the two tests of [Parser.step]. *)
Inductive line_kind : Type := Blank | Header | FilePath.

Definition kind_of (line : string) : line_kind :=
  if PyStr.truthy (PyStr.strip line) then
    if Parser.first_isdigit line then Header else FilePath
  else Blank.

(** The classification as the specification words it: every test is made on
    the trimmed line. *)
Definition kind_by_trimmed (line : string) : line_kind :=
  let t := PyStr.strip line in
  if PyStr.truthy t then
    if Parser.first_isdigit t then Header else FilePath
  else Blank.

(** [line[0].isspace()], false on the empty line. *)
Definition leading_space (line : string) : bool :=
  match line with
  | String c _ => PyStr.isspace c
  | EmptyString => false
  end.

(** The file name has the multi-save form. *)
Definition multi_save_named (p : Path.t) : Prop :=
  is_Some (Re.multi_save_pattern (Path.name p)).

(** [p] stands in [l] after a path whose file name is the canonical name
    of [p]: the name of [p] without its [" (digits)"]. *)
Definition after_its_original (l : list Path.t) (p : Path.t) : Prop :=
  exists pre q mid post g1 g2,
    l = (pre ++ q :: mid ++ p :: post)%list
    /\ Re.multi_save_pattern (Path.name p) = Some (g1, g2)
    /\ Path.name q = (g1 ++ g2)%string.

(** Every registered name is the file name of a path already seen. *)
Definition names_from (st : MultiSave.state) (seen : list Path.t) : Prop :=
  forall k, is_Some (MultiSave.original_names st !! k) ->
            exists a q b, seen = (a ++ q :: b)%list /\ Path.name q = k.

(** The size in force below header [h] when [current] was in force above. *)
Definition header_size (current : Z) (h : string) : Z :=
  match Re.bytes_pattern h with
  | Some g1 => PyStr.int_of_digits g1 / 1024
  | None => current
  end.

Definition nonblank (line : string) : bool := PyStr.truthy (PyStr.strip line).

(** The paths listed by the lines below a header. *)
Definition members (body : list string) : list Path.t :=
  List.map (fun l => Path.of_str (PyStr.strip l)) (List.filter nonblank body).

(** First member against every later member. *)
Definition pairs_of (g : list Path.t) : list (Path.t * Path.t) :=
  match g with
  | [] => []
  | g0 :: later => List.map (pair g0) later
  end.

Definition pair_of (t : triple) : Path.t * Path.t := fst t.

(** Grouped input: a header line, then the lines up to the next header. *)
Record group : Type := { header : string; body : list string }.

Definition render (g : group) : list string := header g :: body g.

Definition layout (blanks : list string) (groups : list group)
  : list string :=
  blanks ++ List.concat (List.map render groups).

Definition well_formed_group (g : group) : Prop :=
  kind_of (header g) = Header
  /\ is_Some (Re.bytes_pattern (header g))
  /\ Forall (fun l => kind_of l <> Header) (body g)
  /\ members (body g) <> [].

(** Weaker than well-formed: the header is a header for the parser and no
    line below it is. *)
Definition grouped (g : group) : Prop :=
  kind_of (header g) = Header
  /\ Forall (fun l => kind_of l <> Header) (body g).

(** The size in force after a run of groups: that of the last header whose
    byte count was found, [initial] when none was. *)
Fixpoint size_in_force (initial : Z) (groups : list group) : Z :=
  match groups with
  | [] => initial
  | g :: rest => size_in_force (header_size initial (header g)) rest
  end.

(** The triples of a run of groups, in order of emission. *)
Fixpoint emitted (size : Z) (groups : list group) : list triple :=
  match groups with
  | [] => []
  | g :: rest =>
      let size' := header_size size (header g) in
      Parser.flush (members (body g)) size' ++ emitted size' rest
  end.

Fixpoint all_chars (cls : ascii -> bool) (s : string) : bool :=
  match s with
  | EmptyString => true
  | String c s' => cls c && all_chars cls s'
  end.

(** The 53-bit mantissa of a positive integer below 2^53. *)
Definition mantissa53 (pa : positive) : positive :=
  Nat.iter (Z.to_nat (53 - Z.pos (digits2_pos pa))) xO pa.

Fixpoint without_commas (s : string) : string :=
  match s with
  | EmptyString => EmptyString
  | String c s' =>
      if Ascii.eqb c "," then without_commas s'
      else String c (without_commas s')
  end.

Definition not_comma (c : ascii) : bool := negb (Ascii.eqb c ",").

Definition valid_unit (units : string) : Prop :=
  units = "KB" \/ units = "MB" \/ units = "GB".

Definition descending {A : Type} (key : A -> Z) (l : list A) : Prop :=
  StronglySorted (fun a b => key b <= key a) l.

Fixpoint sum_nat (l : list nat) : nat :=
  match l with
  | [] => 0%nat
  | n :: l' => (n + sum_nat l')%nat
  end.

(** Lines joined by newlines, and lines without a newline of their own. *)
Definition nl : string := String "010" EmptyString.

Definition unlines (lines : list string) : string := String.concat nl lines.

Definition one_line (s : string) : bool :=
  all_chars (fun c => negb (Ascii.eqb c "010")) s.

(** ** Sample data used to exercise the statements *)

Module Sample.

(** Two groups as [fdupes -r -S] prints them. *)
Definition fdupes_output : string :=
  unlines [ "102400 bytes each:"; "/a/f.txt"; "/a/f (1).txt"; "/a/f (2).txt";
            ""; "2048 bytes each:"; "/b/x"; "/b/y"; ""; "" ].

(** The second header carries no byte count. *)
Definition fdupes_output_bad_header : string :=
  unlines [ "102400 bytes each:"; "/a/f.txt"; "/a/f (1).txt";
            ""; "2048 octets:"; "/b/x"; "/b/y"; "" ].

Definition succeeded (out : string) : CompletedProcess :=
  {| returncode := 0; stdout := out; stderr := "" |}.

Definition failed (code : Z) (err : string) : CompletedProcess :=
  {| returncode := code; stdout := ""; stderr := err |}.

Definition same (p : Path.t) : Path.t := p.

Definition downloads : Path.t := Path.of_str "/home/u/Downloads".

Definition group1 : group :=
  {| header := "102400 bytes each:";
     body := ["/a/f.txt"; "/a/f (1).txt"; "/a/f (2).txt"; ""] |}.

Definition group2 : group :=
  {| header := "2048 bytes each:"; body := ["/b/x"; "/b/y"; ""; ""] |}.

Definition group1' : group :=
  {| header := "102400 bytes each:";
     body := ["/a/f.txt"; "/a/f (1).txt"; ""] |}.

Definition group2_bad : group :=
  {| header := "2048 octets:"; body := ["/b/x"; "/b/y"; ""] |}.

(** A [du] that is refused on [/r/b] and measures 12 KB elsewhere. *)
Definition du_output : string :=
  ("12" ++ String "009" "/r/x" ++ nl)%string.

Definition du (cmd : string) : CompletedProcess :=
  if String.eqb cmd "du -sk /r/b" then failed 1 "du: Permission denied"
  else succeeded du_output.

Definition listing (_ : Path.t) : result (list Path.t) :=
  Return [Path.of_str "/r/a"; Path.of_str "/r/b"; Path.of_str "/r/c"].

Definition all_dirs (_ : Path.t) : bool := true.

End Sample.

(** ** The printing functions and the closing line of the script

    Each call of [print] is one entry of the output; the functions return
    what was printed and the exception that stopped them, if any. *)

Module Report.

Fixpoint spaces (n : nat) : string :=
  match n with
  | O => EmptyString
  | S n' => String " " (spaces n')
  end.

(** [f"{s:>10}"]: padded on the left up to the width, never cut. *)
Definition rjust (width : nat) (s : string) : string :=
  spaces (width - String.length s) ++ s.

Fixpoint print_largest_human_readable
    (folders : list (Path.t * Z)) (units : string)
  : list string * option exn :=
  match folders with
  | [] => ([], None)
  | (folder, size) :: rest =>
      match convert_size size units with
      | Raise e => ([], Some e)
      | Return text =>
          let '(out, stopped) := print_largest_human_readable rest units in
          ((rjust 10 text ++ ": " ++ Path.to_str folder) :: out, stopped)
      end
  end.

Fixpoint print_duplicates (duplicates : list triple) (units : string)
  : list string * option exn :=
  match duplicates with
  | [] => ([], None)
  | (file1, file2, size) :: rest =>
      match convert_size size units with
      | Raise e => ([], Some e)
      | Return text =>
          let '(out, stopped) := print_duplicates rest units in
          ((rjust 10 text ++ ":" ++ String "010" (String "009" (Path.to_str file1))
              ++ String "010" (String "009" (Path.to_str file2))) :: out,
           stopped)
      end
  end.

(** [print(f"Deleted {convert_size(deleted_amount, units='MB')}")] *)
Definition deleted_line (deleted_amount : Z) : result string :=
  let* text := convert_size deleted_amount "MB" in
  Return ("Deleted " ++ text).

End Report.

(** ** Vocabulary of the further statements *)

(** The lines before the first header, and the groups after it. *)
Fixpoint groups_of (lines : list string) : list string * list group :=
  match lines with
  | [] => ([], [])
  | l :: rest =>
      let '(pre, gs) := groups_of rest in
      match kind_of l with
      | Header => ([], {| header := l; body := pre |} :: gs)
      | _ => (l :: pre, gs)
      end
  end.

(** The bytes of the files at [ps], as the file system [fs] has them. *)
Fixpoint sum_sizes (fs : Path.t -> option Z) (ps : list Path.t) : Z :=
  match ps with
  | [] => 0
  | p :: rest =>
      match fs p with
      | Some size => size + sum_sizes fs rest
      | None => sum_sizes fs rest
      end
  end.

Definition same_size (k : Z) (t : triple) : bool := Parser.size_of t =? k.

(** The multi-save pattern after its stem: [ \(\d+\)(\.[^.]+)$]. *)
Definition after_stem (g1 r1 : string) : option (string * string) :=
  Re.lit " (" r1 (fun r2 =>
  Re.plus Re.digit r2 "" (fun _ r3 =>
  Re.lit ")" r3 (fun r4 =>
  Re.lit "." r4 (fun r5 =>
  Re.plus Re.not_period r5 "" (fun e r6 =>
  Re.at_end r6 (Some (g1, String "." e))))))).

(** * Properties *)

Local Open Scope list_scope.

(** ** Sorting *)

Section SortFacts.
Context {A : Type} (key : A -> Z).

Lemma insert_desc_perm x l : Permutation (insert_desc key x l) (x :: l).
Proof.
  induction l as [|y l IH]; simpl; [reflexivity|].
  destruct (key x <? key y); [|reflexivity].
  rewrite IH. apply perm_swap.
Qed.

Lemma sort_desc_perm l : Permutation (sort_desc key l) l.
Proof.
  induction l as [|x l IH]; simpl; [reflexivity|].
  rewrite insert_desc_perm. now constructor.
Qed.

Lemma insert_desc_sorted x l :
  descending key l -> descending key (insert_desc key x l).
Proof.
  unfold descending.
  induction 1 as [|y l Hs IH Hall]; simpl.
  - repeat constructor.
  - destruct (Z.ltb_spec (key x) (key y)) as [Hlt|Hge].
    + constructor; [exact IH|].
      rewrite List.Forall_forall in *. intros z Hz.
      apply (Permutation_in _ (insert_desc_perm x l)) in Hz.
      destruct Hz as [<-|Hz]; [lia|auto].
    + constructor; [constructor; assumption|].
      constructor; [exact Hge|].
      rewrite List.Forall_forall in *. intros z Hz.
      specialize (Hall z Hz). lia.
Qed.

Lemma sort_desc_sorted l : descending key (sort_desc key l).
Proof.
  induction l as [|x l IH]; simpl.
  - constructor.
  - now apply insert_desc_sorted.
Qed.

Lemma sort_desc_length l : length (sort_desc key l) = length l.
Proof. apply Permutation_length, sort_desc_perm. Qed.
End SortFacts.

(** ** Strings and patterns *)

Section StringFacts.
Local Open Scope string_scope.

Lemma sapp_cons c a b : String c a ++ b = String c (a ++ b).
Proof. reflexivity. Qed.

Lemma sapp_nil_l a : "" ++ a = a.
Proof. reflexivity. Qed.

Lemma sapp_nil_r a : a ++ "" = a.
Proof. induction a as [|c a IH]; [reflexivity|]. now rewrite sapp_cons, IH. Qed.

Lemma sapp_assoc a b c : (a ++ b) ++ c = a ++ (b ++ c).
Proof.
  induction a as [|x a IH]; [reflexivity|].
  now rewrite !sapp_cons, IH.
Qed.

Lemma sapp_length a b :
  String.length (a ++ b) = (String.length a + String.length b)%nat.
Proof.
  induction a as [|x a IH]; [reflexivity|].
  rewrite sapp_cons. simpl. now rewrite IH.
Qed.

Lemma startswith_sound p s rest :
  PyStr.startswith p s = Some rest -> s = p ++ rest.
Proof.
  revert s. induction p as [|a p IH]; intros s; simpl.
  - now intros [= ->].
  - destruct s as [|b s]; [discriminate|].
    destruct (Ascii.eqb_spec a b) as [->|]; [|discriminate].
    intros H. rewrite sapp_cons. f_equal. now apply IH.
Qed.

Lemma startswith_complete p rest : PyStr.startswith p (p ++ rest) = Some rest.
Proof.
  induction p as [|a p IH]; [now destruct rest|].
  rewrite sapp_cons. simpl. now rewrite Ascii.eqb_refl.
Qed.

Lemma contains_unfold sub s :
  PyStr.contains sub s =
    match PyStr.startswith sub s with
    | Some _ => true
    | None => match s with
              | String _ s' => PyStr.contains sub s'
              | EmptyString => false
              end
    end.
Proof. now destruct s. Qed.

(** [sub in s] holds exactly when [sub] occurs in [s]. *)
Lemma contains_iff sub s :
  PyStr.contains sub s = true <-> exists a b, s = a ++ sub ++ b.
Proof.
  split.
  - induction s as [|c s IH]; rewrite contains_unfold.
    + destruct (PyStr.startswith sub "") as [r|] eqn:E; [|discriminate].
      intros _. exists "", r. rewrite sapp_nil_l. now apply startswith_sound.
    + destruct (PyStr.startswith sub (String c s)) as [r|] eqn:E.
      * intros _. exists "", r. rewrite sapp_nil_l. now apply startswith_sound.
      * intros H. destruct (IH H) as (a & b & ->).
        exists (String c a), b. now rewrite sapp_cons.
  - intros (a & b & ->). induction a as [|c a IH].
    + rewrite contains_unfold, sapp_nil_l. now rewrite startswith_complete.
    + rewrite contains_unfold, sapp_cons.
      destruct (PyStr.startswith sub _); [reflexivity|exact IH].
Qed.

Lemma plus_sound {R : Type} cls s acc (k : string -> string -> option R) r :
  Re.plus cls s acc k = Some r ->
  exists m rest,
    s = m ++ rest /\ m <> "" /\ all_chars cls m = true
    /\ k (acc ++ m) rest = Some r.
Proof.
  revert acc. induction s as [|c s IH]; intros acc; simpl; [discriminate|].
  destruct (cls c) eqn:Hc; [|discriminate].
  destruct (Re.plus cls s (acc ++ String c "") k) as [r'|] eqn:E.
  - intros [= ->]. destruct (IH _ E) as (m & rest & -> & _ & Hm & Hk).
    exists (String c m), rest. rewrite sapp_cons. simpl. rewrite Hc, Hm.
    split; [reflexivity|]. split; [discriminate|]. split; [reflexivity|].
    now rewrite sapp_assoc in Hk.
  - intros Hk. exists (String c ""), s. simpl. rewrite Hc.
    split; [reflexivity|]. split; [discriminate|]. split; [reflexivity|].
    assumption.
Qed.

Lemma lit_sound {R : Type} l s (k : string -> option R) r :
  Re.lit l s k = Some r -> exists rest, s = l ++ rest /\ k rest = Some r.
Proof.
  unfold Re.lit. destruct (PyStr.startswith l s) as [rest|] eqn:E;
    [|discriminate].
  intros H. exists rest. split; [now apply startswith_sound|assumption].
Qed.

Lemma search_sound {R : Type} (m : string -> option R) s r :
  Re.search m s = Some r -> exists pre suf, s = pre ++ suf /\ m suf = Some r.
Proof.
  induction s as [|c s IH]; simpl.
  - destruct (m "") eqn:E; [|discriminate].
    intros [= ->]. now exists "", "".
  - destruct (m (String c s)) eqn:E.
    + intros [= ->]. now exists "", (String c s).
    + intros H. destruct (IH H) as (pre & suf & -> & Hm).
      now exists (String c pre), suf.
Qed.

(** Group 1 of the header pattern is a non-empty run of decimal digits
    directly followed by [" bytes"] in the line. *)
Lemma bytes_pattern_sound line d :
  Re.bytes_pattern line = Some d ->
  exists pre post,
    line = pre ++ d ++ " bytes" ++ post
    /\ d <> "" /\ all_chars Re.digit d = true.
Proof.
  unfold Re.bytes_pattern. intros H.
  apply search_sound in H as (pre & suf & -> & H).
  apply plus_sound in H as (m & rest & -> & Hne & Hd & H).
  apply lit_sound in H as (post & -> & [= <-]).
  exists pre, post. rewrite sapp_nil_l. auto.
Qed.
End StringFacts.

(** ** Decimal digits and lines *)

Section DecimalFacts.

(** Splitting the joined lines gives the lines back. *)
Lemma split_one_line s : one_line s = true -> PyStr.split "010" s = [s].
Proof.
  induction s as [|c s IH]; [reflexivity|]. unfold one_line. simpl.
  intros [Hc Hs]%andb_prop. apply negb_true_iff in Hc. rewrite Hc.
  now rewrite (IH Hs).
Qed.

Lemma split_line_then a b :
  one_line a = true ->
  PyStr.split "010" (a ++ nl ++ b)%string = a :: PyStr.split "010" b.
Proof.
  induction a as [|c a IH]; [reflexivity|]. unfold one_line.
  rewrite sapp_cons. simpl.
  intros [Hc Ha]%andb_prop. apply negb_true_iff in Hc.
  rewrite Hc. now rewrite (IH Ha).
Qed.

Lemma split_unlines lines :
  lines <> [] -> Forall (fun l => one_line l = true) lines ->
  PyStr.split "010" (unlines lines) = lines.
Proof.
  intros Hne H. induction H as [|l ls Hl Hls IH]; [contradiction|].
  unfold unlines. simpl. destruct ls as [|l' ls].
  - now apply split_one_line.
  - rewrite split_line_then by assumption. f_equal. apply IH. discriminate.
Qed.

Lemma plus_complete {R : Type} cls d rest (k : string -> string -> option R) r :
  d <> ""%string -> all_chars cls d = true ->
  match rest with String c _ => cls c = false | EmptyString => True end ->
  forall acc, k (acc ++ d)%string rest = Some r ->
  Re.plus cls (d ++ rest)%string acc k = Some r.
Proof.
  intros Hne Hd Hrest. induction d as [|c d IH]; [contradiction|].
  intros acc Hk. rewrite sapp_cons. simpl in *.
  apply andb_prop in Hd as [Hc Hd]. rewrite Hc.
  destruct d as [|c' d].
  - rewrite sapp_nil_l.
    assert (E : Re.plus cls rest (acc ++ String c "")%string k = None).
    { destruct rest as [|x rest]; simpl; [reflexivity|]. now rewrite Hrest. }
    now rewrite E.
  - rewrite IH; [reflexivity|discriminate|exact Hd|].
    now rewrite sapp_assoc.
Qed.

Lemma digits_all_decimal u :
  all_chars Re.digit (NilEmpty.string_of_uint u) = true.
Proof. induction u; simpl; try reflexivity; exact IHu. Qed.

Lemma of_uint_acc_value u : forall acc,
  Z.pos (Pos.of_uint_acc u acc)
  = PyStr.int_of_digits_from (Z.pos acc) (NilEmpty.string_of_uint u).
Proof.
  induction u; intros acc;
    cbn [Pos.of_uint_acc NilEmpty.string_of_uint PyStr.int_of_digits_from];
    try reflexivity; rewrite IHu; f_equal;
    unfold PyStr.digit_value, PyStr.code; cbn [N_of_ascii N_of_digits]; lia.
Qed.

Lemma of_uint_value u :
  Z.of_N (Pos.of_uint u)
  = PyStr.int_of_digits_from 0 (NilEmpty.string_of_uint u).
Proof.
  induction u; simpl; try reflexivity; try exact IHu;
    apply of_uint_acc_value.
Qed.

Lemma to_uint_not_nil p : Pos.to_uint p <> Decimal.Nil.
Proof.
  intros H. pose proof (DecimalPos.Unsigned.of_to p) as E.
  rewrite H in E. discriminate.
Qed.

(** [str] and [int] agree on the non-negative integers. *)
Lemma int_of_digits_of_int n :
  0 <= n ->
  PyStr.int_of_digits (PyStr.of_int n) = n
  /\ PyStr.of_int n <> ""%string
  /\ all_chars Re.digit (PyStr.of_int n) = true.
Proof.
  intros Hn. unfold PyStr.of_int, PyStr.int_of_digits.
  destruct n as [|p|p]; [repeat split; discriminate| |lia].
  change (Z.to_int (Z.pos p)) with (Decimal.Pos (Pos.to_uint p)).
  simpl NilZero.string_of_int.
  pose proof (to_uint_not_nil p) as Hnil.
  assert (E : NilZero.string_of_uint (Pos.to_uint p)
              = NilEmpty.string_of_uint (Pos.to_uint p)).
  { destruct (Pos.to_uint p); [contradiction|reflexivity..]. }
  rewrite E. split; [|split].
  - rewrite <- of_uint_value, DecimalPos.Unsigned.of_to. reflexivity.
  - destruct (Pos.to_uint p); [contradiction|discriminate..].
  - apply digits_all_decimal.
Qed.

Lemma search_here {R : Type} (m : string -> option R) s r :
  m s = Some r -> Re.search m s = Some r.
Proof. intros H. destruct s; simpl; now rewrite H. Qed.

(** A header that begins with the decimal digits of [n] followed by
    [" bytes"] yields those digits. *)
Lemma bytes_pattern_declared n rest :
  0 <= n ->
  Re.bytes_pattern (PyStr.of_int n ++ " bytes" ++ rest)%string
  = Some (PyStr.of_int n).
Proof.
  intros Hn. destruct (int_of_digits_of_int n Hn) as (_ & Hne & Hd).
  unfold Re.bytes_pattern. apply search_here.
  apply plus_complete; [exact Hne|exact Hd|reflexivity|].
  rewrite sapp_nil_l. unfold Re.lit.
  now rewrite startswith_complete.
Qed.
End DecimalFacts.

(** ** The parser, line by line *)

Section ParserFacts.
Import Parser.

Lemma map_nth_seq {A : Type} (l : list A) (d : A) :
  List.map (fun i => List.nth i l d) (List.seq 0 (length l)) = l.
Proof.
  induction l as [|a l IH]; simpl; [reflexivity|].
  f_equal. rewrite <- List.seq_shift, List.map_map. exact IH.
Qed.

(** The index loop of [flush] pairs the head with each later member. *)
Lemma flush_cons g0 later size :
  flush (g0 :: later) size = List.map (fun p => (g0, p, size)) later.
Proof.
  unfold flush. simpl length. rewrite Nat.sub_1_r. simpl Nat.pred.
  rewrite <- (map_nth_seq later g0) at 2. rewrite List.map_map.
  apply List.map_ext. intros i. now rewrite Nat.add_1_r.
Qed.

Lemma flush_pairs g size :
  List.map pair_of (flush g size) = pairs_of g.
Proof.
  destruct g as [|g0 later]; [reflexivity|].
  rewrite flush_cons, List.map_map. reflexivity.
Qed.

Lemma flush_size g size t : In t (flush g size) -> size_of t = size.
Proof.
  destruct g as [|g0 later]; [intros []|].
  rewrite flush_cons, List.in_map_iff. now intros (p & <- & _).
Qed.

Lemma flush_length g size : length (flush g size) = (length g - 1)%nat.
Proof.
  destruct g as [|g0 later]; [reflexivity|].
  rewrite flush_cons, List.length_map. simpl. lia.
Qed.

Lemma step_blank st line : kind_of line = Blank -> step st line = st.
Proof.
  unfold kind_of, step. destruct (PyStr.truthy _); [|reflexivity].
  destruct (first_isdigit line); discriminate.
Qed.

Lemma step_path st line :
  kind_of line = FilePath ->
  step st line =
    {| duplicates := duplicates st;
       current_group := current_group st ++ [Path.of_str (PyStr.strip line)];
       current_size := current_size st |}.
Proof.
  unfold kind_of, step. destruct (PyStr.truthy _); [|discriminate].
  destruct (first_isdigit line); [discriminate|reflexivity].
Qed.

Lemma step_header st line :
  kind_of line = Header ->
  step st line =
    {| duplicates := duplicates st ++ flush (current_group st) (current_size st);
       current_group := [];
       current_size := header_size (current_size st) line |}.
Proof.
  unfold kind_of, step, header_size.
  destruct (PyStr.truthy _); [|discriminate].
  destruct (first_isdigit line); [intros _|discriminate].
  destruct st as [d g sz]; simpl.
  destruct g as [|g0 later]; simpl;
    destruct (Re.bytes_pattern line); simpl;
    rewrite ?List.app_nil_r; reflexivity.
Qed.

Lemma run_app st l1 l2 : run st (l1 ++ l2) = run (run st l1) l2.
Proof. apply List.fold_left_app. Qed.

Lemma run_blanks st blanks :
  Forall (fun l => kind_of l = Blank) blanks -> run st blanks = st.
Proof.
  intros H. revert st. induction H as [|l ls Hl _ IH]; intros st.
  - reflexivity.
  - simpl. rewrite step_blank by assumption. apply IH.
Qed.

(** Lines that are not headers only extend the current group. *)
Lemma run_body st lines :
  Forall (fun l => kind_of l <> Header) lines ->
  run st lines =
    {| duplicates := duplicates st;
       current_group := current_group st ++ members lines;
       current_size := current_size st |}.
Proof.
  intros H. revert st. induction H as [|l ls Hl _ IH]; intros st.
  - simpl. rewrite List.app_nil_r. now destruct st.
  - simpl. unfold members. simpl List.filter. unfold nonblank at 1.
    destruct (kind_of l) eqn:Hk; [|congruence|].
    + rewrite step_blank by assumption. rewrite IH.
      unfold kind_of in Hk.
      destruct (PyStr.truthy (PyStr.strip l)); [|reflexivity].
      destruct (first_isdigit l); discriminate.
    + rewrite step_path by assumption. rewrite IH. simpl.
      unfold kind_of in Hk.
      destruct (PyStr.truthy (PyStr.strip l)); [|discriminate].
      simpl. now rewrite <- List.app_assoc.
Qed.

(** A header and the lines below it: the group above is flushed with the
    size that was in force for it, the lines below form the new group. *)
Lemma run_group st h lines :
  kind_of h = Header ->
  Forall (fun l => kind_of l <> Header) lines ->
  run st (h :: lines) =
    {| duplicates := duplicates st ++ flush (current_group st) (current_size st);
       current_group := members lines;
       current_size := header_size (current_size st) h |}.
Proof.
  intros Hh Hl. simpl. rewrite step_header by assumption.
  now rewrite run_body.
Qed.

Lemma finish_eq st :
  finish st = duplicates st ++ flush (current_group st) (current_size st).
Proof.
  unfold finish. destruct (current_group st); [|reflexivity].
  simpl. now rewrite List.app_nil_r.
Qed.
End ParserFacts.

(** ** The parser on grouped input *)

Section GroupedInput.
Import Parser.

Lemma run_groups groups : forall st,
  Forall grouped groups ->
  finish (run st (List.concat (List.map render groups))) =
    duplicates st ++ flush (current_group st) (current_size st)
      ++ emitted (current_size st) groups.
Proof.
  induction groups as [|g rest IH]; intros st Hg.
  - simpl. now rewrite finish_eq, List.app_nil_r.
  - inversion Hg as [|? ? [Hh Hb] Hrest]; subst.
    change (List.concat (List.map render (g :: rest)))
      with (render g ++ List.concat (List.map render rest)).
    rewrite run_app. unfold render at 1.
    rewrite (run_group st _ _ Hh Hb), IH by assumption.
    simpl. now rewrite <- List.app_assoc.
Qed.

Lemma finish_layout blanks groups :
  Forall (fun l => kind_of l = Blank) blanks ->
  Forall grouped groups ->
  finish (run init (layout blanks groups)) = emitted 0 groups.
Proof.
  intros Hb Hg. unfold layout.
  rewrite run_app, (run_blanks init blanks Hb), run_groups by assumption.
  reflexivity.
Qed.

Lemma emitted_app size a b :
  emitted size (a ++ b) = emitted size a ++ emitted (size_in_force size a) b.
Proof.
  revert size. induction a as [|g a IH]; intros size; [reflexivity|].
  simpl. now rewrite IH, List.app_assoc.
Qed.

Lemma emitted_pairs size groups :
  List.map pair_of (emitted size groups) =
    List.flat_map (fun g => pairs_of (members (body g))) groups.
Proof.
  revert size. induction groups as [|g rest IH]; intros size; [reflexivity|].
  simpl. now rewrite List.map_app, flush_pairs, IH.
Qed.

Lemma emitted_length size groups :
  length (emitted size groups) =
    sum_nat (List.map (fun g => (length (members (body g)) - 1)%nat) groups).
Proof.
  revert size. induction groups as [|g rest IH]; intros size; [reflexivity|].
  simpl. now rewrite List.length_app, flush_length, IH.
Qed.

(** No header found a byte count: the initial size is still in force. *)
Lemma size_in_force_none initial groups :
  Forall (fun g => Re.bytes_pattern (header g) = None) groups ->
  size_in_force initial groups = initial.
Proof.
  intros H. revert initial. induction H as [|g rest Hg _ IH]; intros initial.
  - reflexivity.
  - simpl. unfold header_size. rewrite Hg. apply IH.
Qed.

(** Otherwise the byte count of the last header that had one. *)
Lemma size_in_force_last initial a g b d :
  Re.bytes_pattern (header g) = Some d ->
  Forall (fun g => Re.bytes_pattern (header g) = None) b ->
  size_in_force initial (a ++ g :: b) = PyStr.int_of_digits d / 1024.
Proof.
  intros Hg Hb. revert initial. induction a as [|x a IH]; intros initial.
  - simpl. unfold header_size at 1. rewrite Hg.
    now apply size_in_force_none.
  - simpl. apply IH.
Qed.

Lemma well_formed_grouped g : well_formed_group g -> grouped g.
Proof. intros (Hh & _ & Hb & _). now split. Qed.
End GroupedInput.

Section FindDuplicatesFacts.
Variable resolve : Path.t -> Path.t.
Variable run : string -> CompletedProcess.

Lemma find_duplicates_zero_exit root_dir min :
  returncode (run (fdupes_cmd (resolve root_dir) min)) = 0 ->
  find_duplicates_below resolve run root_dir min =
    Return (Parser.parse (stdout (run (fdupes_cmd (resolve root_dir) min)))).
Proof. unfold find_duplicates_below. now intros ->. Qed.

Lemma parse_layout out blanks groups :
  PyStr.split "010" out = layout blanks groups ->
  Forall (fun l => kind_of l = Blank) blanks ->
  Forall grouped groups ->
  Parser.parse out = sort_desc Parser.size_of (emitted 0 groups).
Proof.
  intros Hs Hb Hg. unfold Parser.parse.
  now rewrite Hs, finish_layout.
Qed.
End FindDuplicatesFacts.

(** C1. On well-formed grouped output, [find_duplicates_below] returns one
    triple per member after the first of each group: the number of triples
    is the sum of the member counts less one, and the (original, duplicate)
    pairs are, up to the order fixed by the final sort, the first member of
    each group against each of its later members.  A group with a single
    member contributes no pair. *)
Theorem find_duplicates_pairs_first_with_later
    (resolve : Path.t -> Path.t) (run : string -> CompletedProcess)
    (root_dir : Path.t) (min_size_in_kb : Z)
    (blanks : list string) (groups : list group) :
  returncode (run (fdupes_cmd (resolve root_dir) min_size_in_kb)) = 0 ->
  PyStr.split "010" (stdout (run (fdupes_cmd (resolve root_dir) min_size_in_kb)))
    = layout blanks groups ->
  Forall (fun l => kind_of l = Blank) blanks ->
  Forall well_formed_group groups ->
  exists l,
    find_duplicates_below resolve run root_dir min_size_in_kb = Return l
    /\ length l =
         sum_nat (List.map (fun g => (length (members (body g)) - 1)%nat) groups)
    /\ Permutation (List.map pair_of l)
         (List.flat_map (fun g => pairs_of (members (body g))) groups)
    /\ (forall m, pairs_of [m] = []).
Proof.
  intros Hrc Hs Hb Hwf.
  assert (Hg : Forall grouped groups).
  { eapply List.Forall_impl; [|exact Hwf]. apply well_formed_grouped. }
  exists (Parser.parse
            (stdout (run (fdupes_cmd (resolve root_dir) min_size_in_kb)))).
  split; [now apply find_duplicates_zero_exit|].
  rewrite (parse_layout _ _ _ Hs Hb Hg).
  split; [|split].
  - now rewrite sort_desc_length, emitted_length.
  - rewrite <- (emitted_pairs 0 groups).
    apply Permutation_map, sort_desc_perm.
  - reflexivity.
Qed.

Lemma find_duplicates_pairs_first_with_later_witness :
  exists l,
    find_duplicates_below Sample.same
      (fun _ => Sample.succeeded Sample.fdupes_output) Sample.downloads 100
      = Return l
    /\ length l =
         sum_nat (List.map (fun g => (length (members (body g)) - 1)%nat)
                    [Sample.group1; Sample.group2])
    /\ Permutation (List.map pair_of l)
         (List.flat_map (fun g => pairs_of (members (body g)))
            [Sample.group1; Sample.group2])
    /\ (forall m, pairs_of [m] = []).
Proof.
  apply (find_duplicates_pairs_first_with_later Sample.same
           (fun _ => Sample.succeeded Sample.fdupes_output) Sample.downloads
           100 [] [Sample.group1; Sample.group2]).
  - reflexivity.
  - vm_compute. reflexivity.
  - constructor.
  - repeat (constructor;
            [ split; [vm_compute; reflexivity|];
              split; [eexists; vm_compute; reflexivity|];
              split; [|vm_compute; discriminate];
              repeat (constructor; [vm_compute; discriminate|]); constructor
            | ]).
    constructor.
Defined.

(** C3. A header on which the byte-count pattern finds nothing leaves the
    size untouched, and raises nothing: the call returns, and the triples of
    the group below that header carry the size in force above it, which is
    the size of the last header that had a byte count, or the initial 0. *)
Theorem header_without_byte_count_keeps_size
    (resolve : Path.t -> Path.t) (run : string -> CompletedProcess)
    (root_dir : Path.t) (min_size_in_kb : Z)
    (blanks : list string) (pre : list group) (g : group) (post : list group) :
  returncode (run (fdupes_cmd (resolve root_dir) min_size_in_kb)) = 0 ->
  PyStr.split "010" (stdout (run (fdupes_cmd (resolve root_dir) min_size_in_kb)))
    = layout blanks (pre ++ g :: post) ->
  Forall (fun l => kind_of l = Blank) blanks ->
  Forall grouped (pre ++ g :: post) ->
  Re.bytes_pattern (header g) = None ->
  let kept := size_in_force 0 pre in
  (forall st, Parser.current_size (Parser.step st (header g))
              = Parser.current_size st)
  /\ (exists l,
        find_duplicates_below resolve run root_dir min_size_in_kb = Return l
        /\ Permutation l
             (emitted 0 pre ++ Parser.flush (members (body g)) kept
                ++ emitted kept post))
  /\ (forall t, In t (Parser.flush (members (body g)) kept) ->
                Parser.size_of t = kept)
  /\ (Forall (fun x => Re.bytes_pattern (header x) = None) pre -> kept = 0)
  /\ (forall a x b d,
        pre = a ++ x :: b ->
        Re.bytes_pattern (header x) = Some d ->
        Forall (fun y => Re.bytes_pattern (header y) = None) b ->
        kept = PyStr.int_of_digits d / 1024).
Proof.
  intros Hrc Hs Hb Hg Hnone kept.
  assert (Hh : kind_of (header g) = Header).
  { apply List.Forall_app in Hg as [_ Hg]. inversion Hg as [|? ? [H _] _].
    exact H. }
  split; [|split; [|split; [|split]]].
  - intros st. rewrite step_header by assumption. simpl.
    unfold header_size. now rewrite Hnone.
  - exists (Parser.parse
              (stdout (run (fdupes_cmd (resolve root_dir) min_size_in_kb)))).
    split; [now apply find_duplicates_zero_exit|].
    rewrite (parse_layout _ _ _ Hs Hb Hg), sort_desc_perm, emitted_app.
    simpl. unfold header_size at 1 2. rewrite Hnone. reflexivity.
  - intros t. apply flush_size.
  - apply size_in_force_none.
  - intros a x b d -> Hx Hnb. now apply size_in_force_last.
Qed.

Lemma header_without_byte_count_keeps_size_witness :
  let kept := size_in_force 0 [Sample.group1'] in
  (forall st, Parser.current_size (Parser.step st (header Sample.group2_bad))
              = Parser.current_size st)
  /\ (exists l,
        find_duplicates_below Sample.same
          (fun _ => Sample.succeeded Sample.fdupes_output_bad_header)
          Sample.downloads 100 = Return l
        /\ Permutation l
             (emitted 0 [Sample.group1']
                ++ Parser.flush (members (body Sample.group2_bad)) kept
                ++ emitted kept []))
  /\ (forall t, In t (Parser.flush (members (body Sample.group2_bad)) kept) ->
                Parser.size_of t = kept)
  /\ (Forall (fun x => Re.bytes_pattern (header x) = None) [Sample.group1']
      -> kept = 0)
  /\ (forall a x b d,
        [Sample.group1'] = a ++ x :: b ->
        Re.bytes_pattern (header x) = Some d ->
        Forall (fun y => Re.bytes_pattern (header y) = None) b ->
        kept = PyStr.int_of_digits d / 1024).
Proof.
  apply (header_without_byte_count_keeps_size Sample.same
           (fun _ => Sample.succeeded Sample.fdupes_output_bad_header)
           Sample.downloads 100 [] [Sample.group1'] Sample.group2_bad []).
  - reflexivity.
  - vm_compute. reflexivity.
  - constructor.
  - repeat (constructor;
            [ split; [vm_compute; reflexivity|];
              repeat (constructor; [vm_compute; discriminate|]); constructor
            | ]).
    constructor.
  - vm_compute. reflexivity.
Defined.



(** A header declaring 102400 bytes gives size 100. *)
Example parse_sample_output :
  Parser.parse Sample.fdupes_output =
    [ (Path.of_str "/a/f.txt", Path.of_str "/a/f (1).txt", 100);
      (Path.of_str "/a/f.txt", Path.of_str "/a/f (2).txt", 100);
      (Path.of_str "/b/x", Path.of_str "/b/y", 2) ].
Proof. vm_compute. reflexivity. Qed.

(** The group below the header without a byte count inherits 100. *)
Example parse_sample_output_bad_header :
  Parser.parse Sample.fdupes_output_bad_header =
    [ (Path.of_str "/a/f.txt", Path.of_str "/a/f (1).txt", 100);
      (Path.of_str "/b/x", Path.of_str "/b/y", 100) ].
Proof. vm_compute. reflexivity. Qed.

(** C5. Whatever the text, the parsed triples come out in non-increasing
    order of size; so does every list [find_duplicates_below] returns. *)
Theorem duplicates_sorted_descending :
  (forall out, descending Parser.size_of (Parser.parse out))
  /\ (forall resolve run root_dir min_size_in_kb,
        match find_duplicates_below resolve run root_dir min_size_in_kb with
        | Return l => descending Parser.size_of l
        | Raise _ => True
        end).
Proof.
  split.
  - intros out. apply sort_desc_sorted.
  - intros resolve run root_dir m. unfold find_duplicates_below.
    destruct (negb _); [destruct (PyStr.contains _ _); exact I|].
    apply sort_desc_sorted.
Qed.


(** ** How a line is classified *)

Section Classification.
Import Parser.

Lemma truthy_false s : PyStr.truthy s = false <-> s = ""%string.
Proof. destruct s; simpl; split; congruence. Qed.

Lemma truthy_true s : PyStr.truthy s = true <-> s <> ""%string.
Proof. destruct s; simpl; split; congruence. Qed.

Lemma space_not_digit c : PyStr.isspace c = true -> PyStr.isdigit c = false.
Proof.
  destruct c as [[] [] [] [] [] [] [] []]; vm_compute; congruence.
Qed.

(** Without leading whitespace the trimmed line starts like the line. *)
Lemma strip_keeps_first c s :
  PyStr.isspace c = false ->
  exists r, PyStr.strip (String c s) = String c r.
Proof.
  intros Hc. unfold PyStr.strip, PyStr.strip_by. simpl. rewrite Hc. simpl.
  destruct (PyStr.rstrip_by PyStr.isspace s).
  - rewrite Hc. now eexists.
  - now eexists.
Qed.

Lemma kind_of_no_leading_space line :
  leading_space line = false -> kind_of line = kind_by_trimmed line.
Proof.
  destruct line as [|c s]; [reflexivity|]. simpl. intros Hc.
  destruct (strip_keeps_first c s Hc) as [r Hr].
  unfold kind_of, kind_by_trimmed. rewrite Hr. reflexivity.
Qed.

Lemma kind_of_leading_space line :
  leading_space line = true -> kind_of line <> Header.
Proof.
  destruct line as [|c s]; [discriminate|]. simpl. intros Hc.
  unfold kind_of. simpl. rewrite (space_not_digit c Hc).
  destruct (PyStr.truthy _); discriminate.
Qed.
End Classification.

(** C9, as the code has it.  A line is skipped when its trimmed content is
    empty; a non-blank line is a header when its first character, taken
    before any trimming, is a digit; every other non-blank line is a file
    path, recorded trimmed.  For a line without leading whitespace this is
    the classification by trimmed content; a line with leading whitespace
    is never a header. *)
Theorem line_classification (st : Parser.state) (line : string) :
  (kind_of line = Blank <-> PyStr.strip line = ""%string)
  /\ (kind_of line = Header <->
        PyStr.strip line <> ""%string /\ Parser.first_isdigit line = true)
  /\ (kind_of line = FilePath <->
        PyStr.strip line <> ""%string /\ Parser.first_isdigit line = false)
  /\ match kind_of line with
     | Blank => Parser.step st line = st
     | Header =>
         Parser.step st line =
           {| Parser.duplicates :=
                Parser.duplicates st
                  ++ Parser.flush (Parser.current_group st) (Parser.current_size st);
              Parser.current_group := [];
              Parser.current_size := header_size (Parser.current_size st) line |}
     | FilePath =>
         Parser.step st line =
           {| Parser.duplicates := Parser.duplicates st;
              Parser.current_group :=
                Parser.current_group st ++ [Path.of_str (PyStr.strip line)];
              Parser.current_size := Parser.current_size st |}
     end
  /\ (leading_space line = false -> kind_of line = kind_by_trimmed line)
  /\ (leading_space line = true -> kind_of line <> Header).
Proof.
  split; [|split; [|split; [|split; [|split]]]].
  - unfold kind_of. rewrite <- truthy_false.
    destruct (PyStr.truthy _); [|tauto].
    destruct (Parser.first_isdigit line); split; congruence.
  - unfold kind_of. rewrite <- truthy_true.
    destruct (PyStr.truthy _), (Parser.first_isdigit line);
      split; try congruence; try tauto; intros [? ?]; congruence.
  - unfold kind_of. rewrite <- truthy_true.
    destruct (PyStr.truthy _), (Parser.first_isdigit line);
      split; try congruence; try tauto; intros [? ?]; congruence.
  - destruct (kind_of line) eqn:Hk.
    + now apply step_blank.
    + now apply step_header.
    + now apply step_path.
  - apply kind_of_no_leading_space.
  - apply kind_of_leading_space.
Qed.

(** C9 as stated fails: a header behind leading whitespace is a header by
    its trimmed content, and the parser records it as a file path. *)
Lemma indented_header_is_read_as_path :
  kind_by_trimmed "  2048 bytes each:" = Header
  /\ kind_of "  2048 bytes each:" = FilePath
  /\ kind_of "  2048 bytes each:" <> kind_by_trimmed "  2048 bytes each:"
  /\ Parser.step Parser.init "  2048 bytes each:" =
       {| Parser.duplicates := [];
          Parser.current_group := [Path.of_str "2048 bytes each:"];
          Parser.current_size := 0 |}.
Proof.
  split; [reflexivity|]. split; [reflexivity|].
  split; [vm_compute; discriminate|]. vm_compute. reflexivity.
Qed.

(** ** The multi-save matcher *)

Section MultiSaveFacts.
Import MultiSave.

(** The canonical name is strictly shorter than the name it comes from. *)
Lemma multi_save_pattern_shorter name g1 g2 :
  Re.multi_save_pattern name = Some (g1, g2) ->
  (String.length (g1 ++ g2)%string < String.length name)%nat.
Proof.
  unfold Re.multi_save_pattern. intros H.
  apply plus_sound in H as (m & r1 & -> & _ & _ & H).
  apply lit_sound in H as (r2 & -> & H).
  apply plus_sound in H as (ds & r3 & -> & _ & _ & H).
  apply lit_sound in H as (r4 & -> & H).
  apply lit_sound in H as (r5 & -> & H).
  apply plus_sound in H as (e & r6 & -> & _ & _ & H).
  assert (He : Some (("" ++ m)%string, String "."%char ("" ++ e)%string)
               = Some (g1, g2)).
  { destruct r6 as [|c [|c' r]]; simpl in H; [exact H| |discriminate].
    destruct (Ascii.eqb c "010"); [exact H|discriminate]. }
  injection He as <- <-. rewrite !sapp_nil_l.
  rewrite ?sapp_length. simpl. rewrite ?sapp_length. simpl. lia.
Qed.

Lemma canonical_name_differs name g1 g2 :
  Re.multi_save_pattern name = Some (g1, g2) -> name <> (g1 ++ g2)%string.
Proof.
  intros H%multi_save_pattern_shorter ->. lia.
Qed.

(** What one iteration does to the list of results. *)
Lemma step_multi_saves st path :
  multi_saves (step st path) = multi_saves st
  \/ (multi_saves (step st path) = multi_saves st ++ [path]
      /\ exists g1 g2,
           Re.multi_save_pattern (Path.name path) = Some (g1, g2)
           /\ is_Some (original_names st !! (g1 ++ g2)%string)).
Proof.
  unfold step.
  destruct (Re.multi_save_pattern (Path.name path)) as [[g1 g2]|] eqn:E;
    [|now left].
  destruct (original_names st !! (g1 ++ g2)%string) eqn:L; [|now left].
  right. split; [reflexivity|]. exists g1, g2. split; [reflexivity|].
  rewrite L. now eexists.
Qed.

Lemma step_names_from st seen path :
  names_from st seen -> names_from (step st path) (seen ++ [path]).
Proof.
  intros Hinv k Hk.
  assert (Hcase : is_Some (original_names st !! k) \/ Path.name path = k).
  { revert Hk. unfold step.
    destruct (Re.multi_save_pattern (Path.name path)) as [[g1 g2]|];
      [destruct (original_names st !! (g1 ++ g2)%string)|]; simpl;
      rewrite ?lookup_insert_is_Some; tauto. }
  destruct Hcase as [H|H].
  - destruct (Hinv k H) as (a & q & b & -> & Hq).
    exists a, q, (b ++ [path]). now rewrite <- List.app_assoc.
  - exists seen, path, []. auto.
Qed.

Lemma run_sublist l : forall st,
  exists r, multi_saves (run st l) = multi_saves st ++ r
            /\ sublist r l /\ Forall multi_save_named r.
Proof.
  induction l as [|x l IH]; intros st.
  - exists []. simpl. rewrite List.app_nil_r. repeat constructor.
  - simpl. destruct (IH (step st x)) as (r & -> & Hsub & Hall).
    destruct (step_multi_saves st x) as [->|[-> (g1 & g2 & Hm & _)]].
    + exists r. split; [reflexivity|]. split; [now constructor|assumption].
    + exists (x :: r). rewrite <- List.app_assoc. split; [reflexivity|].
      split; [now constructor|]. constructor; [|assumption].
      unfold multi_save_named. rewrite Hm. now eexists.
Qed.

Lemma run_reported l : forall st seen,
  names_from st seen ->
  forall p, In p (multi_saves (run st l)) ->
            In p (multi_saves st) \/ after_its_original (seen ++ l) p.
Proof.
  induction l as [|x l IH]; intros st seen Hinv p Hp; [now left|].
  simpl in Hp.
  destruct (IH _ _ (step_names_from st seen x Hinv) p Hp) as [H|H].
  - destruct (step_multi_saves st x) as [E|[E (g1 & g2 & Hm & Hk)]];
      rewrite E in H; [now left|].
    apply List.in_app_or in H as [H|[<-|[]]]; [now left|].
    right. destruct (Hinv _ Hk) as (a & q & b & -> & Hq).
    exists a, q, b, l, g1, g2. rewrite <- List.app_assoc. auto.
  - right. now rewrite <- List.app_assoc in H.
Qed.

Lemma init_names_from : names_from init [].
Proof. intros k [v Hv]. unfold init in Hv. simpl in Hv.
       now rewrite lookup_empty in Hv. Qed.

(** A reported path stands after a path named like its canonical name. *)
Lemma reported_after_original l p :
  In p (find_browser_multi_saves l) -> after_its_original l p.
Proof.
  intros Hp.
  destruct (run_reported l init [] init_names_from p Hp) as [[]|H].
  exact H.
Qed.

(** The results are taken, in order, from the input without its head. *)
Lemma results_sublist_of_tail l :
  sublist (find_browser_multi_saves l) (List.tl l)
  /\ Forall multi_save_named (find_browser_multi_saves l).
Proof.
  unfold find_browser_multi_saves.
  destruct l as [|x l]; [split; constructor|]. simpl.
  destruct (run_sublist l (step init x)) as (r & -> & Hsub & Hall).
  destruct (step_multi_saves init x) as [->|[_ (g1 & g2 & _ & [v Hv])]].
  - now split.
  - unfold init in Hv. simpl in Hv. now rewrite lookup_empty in Hv.
Qed.

(** A path is never reported on the strength of itself. *)
Lemma reported_has_other_original l p :
  In p (find_browser_multi_saves l) ->
  exists q, In q l /\ q <> p.
Proof.
  intros (pre & q & mid & post & g1 & g2 & -> & Hm & Hq)%reported_after_original.
  exists q. split; [apply List.in_or_app; right; now left|].
  intros ->. now apply canonical_name_differs in Hm.
Qed.
End MultiSaveFacts.

(** C2. The two examples of the specification, and the rule behind them:
    a path is reported only if an earlier path of the same input list has,
    as its file name, the canonical name of the reported one. *)
Theorem multi_save_reported_only_after_original :
  find_browser_multi_saves
    [Path.of_str "/a/f.txt"; Path.of_str "/a/f (1).txt"]
    = [Path.of_str "/a/f (1).txt"]
  /\ find_browser_multi_saves
       [Path.of_str "/a/f (1).txt"; Path.of_str "/a/f (2).txt"] = []
  /\ (forall l p, In p (find_browser_multi_saves l) -> after_its_original l p).
Proof.
  split; [vm_compute; reflexivity|].
  split; [vm_compute; reflexivity|].
  apply reported_after_original.
Qed.

Section CleanupFacts.
Import Cleanup.

Lemma sublist_In {A : Type} (r l : list A) x :
  sublist r l -> In x r -> In x l.
Proof.
  induction 1 as [|y r l _ IH|y r l _ IH]; simpl; [tauto|tauto|].
  intros H. right. now apply IH.
Qed.

(** On the two paths of a triple: nothing, or the second path alone. *)
Lemma two_paths a b :
  find_browser_multi_saves [a; b] = []
  \/ (find_browser_multi_saves [a; b] = [b] /\ a <> b).
Proof.
  destruct (results_sublist_of_tail [a; b]) as [Hs _]. simpl in Hs.
  assert (H : find_browser_multi_saves [a; b] = []
              \/ find_browser_multi_saves [a; b] = [b]).
  { inversion Hs as [|x r l Hr|x r l Hr]; subst.
    - inversion Hr; subst. now right.
    - inversion Hr; subst. now left. }
  destruct H as [H|H]; [now left|]. right. split; [exact H|].
  destruct (reported_has_other_original [a; b] b) as (q & Hq & Hne).
  { rewrite H. now left. }
  destruct Hq as [<-|[<-|[]]]; congruence.
Qed.

(** Processing a triple leaves the file of its original in place. *)
Lemma body_keeps_original st original dup size :
  files (fst (body st (original, dup, size))) original = files st original.
Proof.
  unfold body.
  destruct (two_paths original dup) as [->|[-> Hne]]; [reflexivity|].
  destruct (convert_size size "MB"); [|reflexivity].
  simpl. destruct (files st dup); [|reflexivity].
  simpl. unfold unlink. now destruct (decide (original = dup)).
Qed.
End CleanupFacts.

(** C10, as the code has it.  The result is a subsequence of the input
    without its first entry, made of paths with a multi-save file name; so
    the entry in first position is never selected.  The first path is absent
    from the result whenever it does not occur again later in the input, and
    always for a list of two paths: the deletion loop never removes the
    original of the triple it is processing. *)
Theorem multi_saves_spare_first_position (l : list Path.t) :
  sublist (find_browser_multi_saves l) (List.tl l)
  /\ sublist (find_browser_multi_saves l) l
  /\ Forall multi_save_named (find_browser_multi_saves l)
  /\ (forall x rest, l = x :: rest -> ~ In x rest ->
                     ~ In x (find_browser_multi_saves l))
  /\ (forall a b, ~ In a (find_browser_multi_saves [a; b]))
  /\ (forall st original dup size,
        Cleanup.files (fst (Cleanup.body st (original, dup, size))) original
        = Cleanup.files st original).
Proof.
  destruct (results_sublist_of_tail l) as [Hs Hall].
  split; [exact Hs|]. split; [|split; [exact Hall|split; [|split]]].
  - destruct l as [|x l]; [exact Hs|]. now constructor.
  - intros x rest -> Hx Hin. apply Hx. exact (sublist_In _ _ _ Hs Hin).
  - intros a b Hin. destruct (two_paths a b) as [H|[H Hne]]; rewrite H in Hin.
    + destruct Hin.
    + destruct Hin as [->|[]]. now apply Hne.
  - apply body_keeps_original.
Qed.

(** C10 as stated fails on a list in which the first path occurs again: the
    later occurrence is reported, so the result contains the first element. *)
Lemma repeated_first_path_is_reported :
  find_browser_multi_saves
    [Path.of_str "/a/f (1).txt"; Path.of_str "/a/f.txt";
     Path.of_str "/a/f (1).txt"]
    = [Path.of_str "/a/f (1).txt"]
  /\ In (List.hd (Path.of_str "")
          [Path.of_str "/a/f (1).txt"; Path.of_str "/a/f.txt";
           Path.of_str "/a/f (1).txt"])
        (find_browser_multi_saves
           [Path.of_str "/a/f (1).txt"; Path.of_str "/a/f.txt";
            Path.of_str "/a/f (1).txt"]).
Proof.
  split; [vm_compute; reflexivity|]. vm_compute. now left.
Qed.

(** ** The folder inventory *)

Section FolderFacts.
Variable resolve : Path.t -> Path.t.
Variable iterdir : Path.t -> result (list Path.t).
Variable is_dir : Path.t -> bool.
Variable run : string -> CompletedProcess.

Lemma get_folder_size_failed folder :
  returncode (run ("du -sk " ++ Path.to_str folder)%string) <> 0 ->
  get_folder_size run folder = Return (folder, -1).
Proof.
  intros H. unfold get_folder_size.
  now destruct (Z.eqb_spec (returncode (run ("du -sk " ++ Path.to_str folder)%string)) 0).
Qed.

Lemma collect_app a b : forall acc,
  collect is_dir run (a ++ b) acc =
    (let* measured := collect is_dir run a acc in
     collect is_dir run b measured).
Proof.
  induction a as [|x a IH]; intros acc; [reflexivity|].
  simpl. destruct (is_dir x); [|apply IH].
  destruct (get_folder_size run x) as [entry|[]]; try reflexivity; apply IH.
Qed.

Lemma collect_extends items : forall acc l,
  collect is_dir run items acc = Return l -> exists r, l = acc ++ r.
Proof.
  induction items as [|x items IH]; intros acc l; simpl.
  - intros [= <-]. exists []. now rewrite List.app_nil_r.
  - destruct (is_dir x); [|apply IH].
    destruct (get_folder_size run x) as [entry|[]]; try discriminate.
    + intros H. destruct (IH _ _ H) as [r ->].
      exists (entry :: r). now rewrite <- List.app_assoc.
    + apply IH.
Qed.

Lemma collect_returns items : forall acc,
  Forall (fun d => is_dir d = true ->
                   exists entry, get_folder_size run d = Return entry) items ->
  exists l, collect is_dir run items acc = Return l.
Proof.
  induction items as [|x items IH]; intros acc H; simpl; [now eexists|].
  inversion H as [|? ? Hx Hrest]; subst.
  destruct (is_dir x); [|now apply IH].
  destruct (Hx eq_refl) as [entry ->]. now apply IH.
Qed.
End FolderFacts.

(** C7. A directory whose size measurement exits with a non-zero status
    raises nothing: it is entered with size -1, the directories listed after
    it are still measured, and the inventory returns with that entry unless
    the measurement of another directory raises. *)
Theorem unmeasurable_folder_gets_sentinel
    (resolve : Path.t -> Path.t) (iterdir : Path.t -> result (list Path.t))
    (is_dir : Path.t -> bool) (run : string -> CompletedProcess)
    (root_dir : Path.t) (pre : list Path.t) (folder : Path.t)
    (post : list Path.t) :
  iterdir (resolve root_dir) = Return (pre ++ folder :: post) ->
  is_dir folder = true ->
  returncode (run ("du -sk " ++ Path.to_str folder)%string) <> 0 ->
  get_folder_size run folder = Return (folder, -1)
  /\ (forall acc,
        collect is_dir run (pre ++ folder :: post) acc =
          (let* measured := collect is_dir run pre acc in
           collect is_dir run post (measured ++ [(folder, -1)])))
  /\ (forall l,
        find_largest_folders resolve iterdir is_dir run root_dir = Return l ->
        In (folder, -1) l)
  /\ (Forall (fun d => is_dir d = true ->
                       exists entry, get_folder_size run d = Return entry)
             (pre ++ post) ->
      exists l,
        find_largest_folders resolve iterdir is_dir run root_dir = Return l
        /\ In (folder, -1) l).
Proof.
  intros Hls Hdir Hrc.
  pose proof (get_folder_size_failed run folder Hrc) as Hsize.
  assert (Hstep : forall acc,
    collect is_dir run (pre ++ folder :: post) acc =
      (let* measured := collect is_dir run pre acc in
       collect is_dir run post (measured ++ [(folder, -1)]))).
  { intros acc. rewrite collect_app.
    destruct (collect is_dir run pre acc) as [m|e]; [|reflexivity].
    simpl. now rewrite Hdir, Hsize. }
  assert (Hin : forall l,
    find_largest_folders resolve iterdir is_dir run root_dir = Return l ->
    In (folder, -1) l).
  { intros l. unfold find_largest_folders. rewrite Hls. simpl. rewrite Hstep.
    destruct (collect is_dir run pre []) as [m|e]; [|discriminate]. simpl.
    destruct (collect is_dir run post (m ++ [(folder, -1)])) as [fs|e] eqn:E;
      [|discriminate].
    simpl. intros [= <-].
    apply (Permutation_in _ (Permutation_sym (sort_desc_perm snd fs))).
    destruct (collect_extends _ _ _ _ _ E) as [r ->].
    apply List.in_or_app. left. apply List.in_or_app. right. now left. }
  split; [exact Hsize|]. split; [exact Hstep|]. split; [exact Hin|].
  intros Hok. apply List.Forall_app in Hok as [Hpre Hpost].
  unfold find_largest_folders in *. rewrite Hls in *. simpl in *.
  rewrite Hstep in *.
  destruct (collect_returns is_dir run pre [] Hpre) as [m Hm].
  rewrite Hm in *. simpl in *.
  destruct (collect_returns is_dir run post (m ++ [(folder, -1)]) Hpost)
    as [fs Hfs].
  rewrite Hfs in *. simpl in *. eexists. split; [reflexivity|].
  now apply Hin.
Qed.

Lemma unmeasurable_folder_gets_sentinel_witness :
  get_folder_size Sample.du (Path.of_str "/r/b")
    = Return (Path.of_str "/r/b", -1)
  /\ (forall acc,
        collect Sample.all_dirs Sample.du
          ([Path.of_str "/r/a"] ++ Path.of_str "/r/b" :: [Path.of_str "/r/c"])
          acc =
          (let* measured :=
             collect Sample.all_dirs Sample.du [Path.of_str "/r/a"] acc in
           collect Sample.all_dirs Sample.du [Path.of_str "/r/c"]
             (measured ++ [(Path.of_str "/r/b", -1)])))
  /\ (forall l,
        find_largest_folders Sample.same Sample.listing Sample.all_dirs
          Sample.du (Path.of_str "/r") = Return l ->
        In (Path.of_str "/r/b", -1) l)
  /\ (Forall (fun d => Sample.all_dirs d = true ->
                       exists entry,
                         get_folder_size Sample.du d = Return entry)
             ([Path.of_str "/r/a"] ++ [Path.of_str "/r/c"]) ->
      exists l,
        find_largest_folders Sample.same Sample.listing Sample.all_dirs
          Sample.du (Path.of_str "/r") = Return l
        /\ In (Path.of_str "/r/b", -1) l).
Proof.
  apply (unmeasurable_folder_gets_sentinel Sample.same Sample.listing
           Sample.all_dirs Sample.du (Path.of_str "/r")
           [Path.of_str "/r/a"] (Path.of_str "/r/b") [Path.of_str "/r/c"]).
  - reflexivity.
  - reflexivity.
  - vm_compute. discriminate.
Defined.

(** The inventory of the sample directory: the refused folder comes last. *)
Example find_largest_folders_sample :
  find_largest_folders Sample.same Sample.listing Sample.all_dirs Sample.du
    (Path.of_str "/r")
  = Return [ (Path.of_str "/r/a", 12); (Path.of_str "/r/c", 12);
             (Path.of_str "/r/b", -1) ].
Proof. vm_compute. reflexivity. Qed.

(** ** Floats: division by 1024 below 2^53 is exact *)

Section FloatFacts.
Import PyFloat.

Lemma iter_xO_value (n : nat) (x : positive) :
  Z.pos (Nat.iter n xO x) = Z.pos x * 2 ^ Z.of_nat n.
Proof.
  induction n as [|n IH].
  - simpl. lia.
  - rewrite Nat2Z.inj_succ, Z.pow_succ_r by lia. simpl Nat.iter.
    rewrite Pos2Z.inj_xO, IH. lia.
Qed.

Lemma iter_xO_digits (n : nat) (x : positive) :
  Z.pos (digits2_pos (Nat.iter n xO x)) = Z.pos (digits2_pos x) + Z.of_nat n.
Proof.
  induction n as [|n IH].
  - simpl. lia.
  - rewrite Nat2Z.inj_succ. simpl Nat.iter. simpl digits2_pos.
    rewrite Pos2Z.inj_succ, IH. lia.
Qed.

Lemma fexp_normal e : -1021 <= e -> fexp prec emax e = e - 53.
Proof. unfold fexp, emin, prec, emax. lia. Qed.

Lemma round_exact_even s p e :
  Z.pos (digits2_pos p) = 53 -> -1074 <= e -> e + 1 <= 971 ->
  binary_round_aux prec emax s (Z.pos p~0) e loc_Exact = S754_finite s p (e + 1).
Proof.
  intros Hd Hlo Hhi. unfold binary_round_aux, shr_fexp.
  assert (H1 : fexp prec emax (Zdigits2 (Z.pos p~0) + e) - e = 1).
  { simpl Zdigits2. rewrite Pos2Z.inj_succ, Hd. rewrite fexp_normal; lia. }
  rewrite H1. simpl.
  assert (H2 : fexp prec emax (Z.pos (digits2_pos p) + (e + 1)) - (e + 1) = 0).
  { rewrite Hd, fexp_normal; lia. }
  rewrite H2. simpl.
  destruct (Z.leb_spec (e + 1) (emax - prec)) as [_|H]; [reflexivity|].
  unfold emax, prec in H. lia.
Qed.

Lemma div_eucl_exact a b : b <> 0 -> Z.div_eucl (a * b) b = (a, 0).
Proof.
  intros Hb. pose proof (Z.div_mul a b Hb) as Hq.
  pose proof (Z.mod_mul a b Hb) as Hr.
  unfold Z.div, Z.modulo in Hq, Hr.
  destruct (Z.div_eucl (a * b) b) as [q r]. simpl in *. now subst.
Qed.

Lemma div_core_int_1024 (pa : positive) :
  Z.pos (digits2_pos pa) <= 53 ->
  SFdiv_core_binary prec emax (Z.pos pa) 0 1024 0 =
    (Z.pos (Nat.iter (Z.to_nat (53 - Z.pos (digits2_pos pa))) xO pa)~0,
     Z.pos (digits2_pos pa) - 64, loc_Exact).
Proof.
  intros Hd. unfold SFdiv_core_binary.
  change (Zdigits2 (Z.pos pa)) with (Z.pos (digits2_pos pa)).
  change (Zdigits2 1024) with 11.
  set (d := Z.pos (digits2_pos pa)) in *.
  assert (Hd1 : 1 <= d) by (subst d; lia).
  assert (He : Z.min (fexp prec emax (d + 0 - (11 + 0))) (0 - 0) = d - 64).
  { rewrite fexp_normal by lia. lia. }
  rewrite He.
  assert (Hs : 0 - 0 - (d - 64) = 64 - d) by lia. rewrite Hs.
  assert (Hm : Z.shiftl (Z.pos pa) (64 - d)
               = Z.pos (Nat.iter (Z.to_nat (53 - d)) xO pa)~0 * 1024).
  { rewrite Z.shiftl_mul_pow2 by lia.
    rewrite (Pos2Z.inj_xO (Nat.iter _ xO pa)), iter_xO_value.
    rewrite Z2Nat.id by lia.
    replace (64 - d) with ((53 - d) + 11) by lia.
    rewrite Z.pow_add_r by lia. change (2 ^ 11) with 2048. lia. }
  destruct (64 - d) as [|k|k] eqn:E; try lia.
  rewrite Hm, div_eucl_exact by lia. reflexivity.
Qed.

Lemma digits2_pos_lower p : 2 ^ (Z.pos (digits2_pos p) - 1) <= Z.pos p.
Proof.
  induction p as [p IH|p IH|]; simpl digits2_pos;
    rewrite ?Pos2Z.inj_succ;
    try (replace (Z.succ (Z.pos (digits2_pos p)) - 1)
           with (Z.succ (Z.pos (digits2_pos p) - 1)) by lia;
         rewrite Z.pow_succ_r by lia; lia).
  simpl. lia.
Qed.

Lemma digits2_pos_bound p k :
  0 <= k -> Z.pos p < 2 ^ k -> Z.pos (digits2_pos p) <= k.
Proof.
  intros Hk Hp. destruct (Z.le_gt_cases (Z.pos (digits2_pos p)) k) as [H|H];
    [exact H|].
  pose proof (digits2_pos_lower p) as Hl.
  assert (2 ^ k <= 2 ^ (Z.pos (digits2_pos p) - 1))
    by (apply Z.pow_le_mono_r; lia).
  lia.
Qed.

Lemma div_half_even_scale c x y :
  0 < c -> 0 < y -> div_half_even (c * x) (c * y) = div_half_even x y.
Proof.
  intros Hc Hy. unfold div_half_even.
  rewrite Z.div_mul_cancel_l by lia.
  rewrite Z.mul_mod_distr_l by lia.
  destruct (Z.compare_spec (2 * (c * (x mod y))) (c * y)),
    (Z.compare_spec (2 * (x mod y)) y); try reflexivity; nia.
Qed.

Lemma div_core_float_1024 (p : positive) (e : Z) :
  Z.pos (digits2_pos p) = 53 -> -1000 <= e <= 900 ->
  SFdiv_core_binary prec emax (Z.pos p) e (Z.pos 4503599627370496) (-42) =
    (Z.pos p~0, e - 11, loc_Exact).
Proof.
  intros Hd He. unfold SFdiv_core_binary.
  change (Zdigits2 (Z.pos p)) with (Z.pos (digits2_pos p)).
  change (Zdigits2 (Z.pos 4503599627370496)) with 53. rewrite Hd.
  assert (He' : Z.min (fexp prec emax (53 + e - (53 + -42))) (e - -42) = e - 11).
  { rewrite fexp_normal by lia. lia. }
  rewrite He'.
  assert (Hs : e - -42 - (e - 11) = 53) by lia. rewrite Hs.
  assert (Hm : Z.shiftl (Z.pos p) 53 = Z.pos p~0 * Z.pos 4503599627370496).
  { rewrite Z.shiftl_mul_pow2 by lia. rewrite (Pos2Z.inj_xO p).
    change (2 ^ 53) with (2 * Z.pos 4503599627370496). lia. }
  rewrite Hm, div_eucl_exact by lia. reflexivity.
Qed.

Lemma mantissa53_digits pa :
  Z.pos pa < 2 ^ 53 -> Z.pos (digits2_pos (mantissa53 pa)) = 53.
Proof.
  intros Hp. unfold mantissa53. rewrite iter_xO_digits.
  pose proof (digits2_pos_bound pa 53 ltac:(lia) Hp). lia.
Qed.

Lemma int_truediv_1024 (a : Z) :
  a <> 0 -> Z.abs a < 2 ^ 53 ->
  int_truediv a 1024 =
    Return (S754_finite (a <? 0) (mantissa53 (Z.to_pos (Z.abs a)))
              (Z.pos (digits2_pos (Z.to_pos (Z.abs a))) - 63)).
Proof.
  intros Ha Hb. unfold int_truediv.
  change (1024 =? 0) with false. change (1024 <? 0) with false.
  change (Z.abs 1024) with 1024. rewrite xorb_false_r.
  destruct (Z.eqb_spec a 0) as [|_]; [contradiction|].
  set (pa := Z.to_pos (Z.abs a)).
  assert (Hpa : Z.abs a = Z.pos pa) by (subst pa; rewrite Z2Pos.id; lia).
  rewrite Hpa in *.
  assert (Hd : Z.pos (digits2_pos pa) <= 53) by (apply digits2_pos_bound; lia).
  rewrite (div_core_int_1024 pa Hd).
  rewrite round_exact_even; try lia.
  - unfold mantissa53. do 2 f_equal. lia.
  - apply (mantissa53_digits pa Hb).
Qed.

Lemma bind_Return {A B : Type} (a : A) (k : A -> result B) :
  bind (Return a) k = k a.
Proof. reflexivity. Qed.

Lemma truediv_int_1024 (s : bool) (p : positive) (e : Z) :
  Z.pos (digits2_pos p) = 53 -> -1000 <= e <= 900 ->
  truediv_int (S754_finite s p e) 1024 = Return (S754_finite s p (e - 10)).
Proof.
  intros Hd He. unfold truediv_int.
  change (of_int 1024)
    with (Return (S754_finite false 4503599627370496 (-42))).
  rewrite bind_Return. unfold SFdiv.
  rewrite (div_core_float_1024 p e Hd He), xorb_false_r.
  rewrite round_exact_even; try lia. do 2 f_equal. lia.
Qed.

Lemma hundredths_exact (pa : positive) (k : Z) :
  Z.pos pa < 2 ^ 53 -> 0 <= k ->
  hundredths (mantissa53 pa) (Z.pos (digits2_pos pa) - 63 - k)
  = div_half_even (Z.pos pa * 100) (1024 * 2 ^ k).
Proof.
  intros Hp Hk.
  assert (Hd : Z.pos (digits2_pos pa) <= 53) by (apply digits2_pos_bound; lia).
  unfold hundredths, mantissa53.
  destruct (Z.leb_spec 0 (Z.pos (digits2_pos pa) - 63 - k)) as [H|_]; [lia|].
  rewrite iter_xO_value, Z2Nat.id by lia.
  replace (- (Z.pos (digits2_pos pa) - 63 - k))
    with ((53 - Z.pos (digits2_pos pa)) + (10 + k)) by lia.
  rewrite Z.pow_add_r by lia. rewrite (Z.pow_add_r 2 10 k) by lia.
  change (2 ^ 10) with 1024.
  replace (Z.pos pa * 2 ^ (53 - Z.pos (digits2_pos pa)) * 100)
    with (2 ^ (53 - Z.pos (digits2_pos pa)) * (Z.pos pa * 100)) by lia.
  apply div_half_even_scale.
  - apply Z.pow_pos_nonneg; lia.
  - assert (0 < 2 ^ k) by (apply Z.pow_pos_nonneg; lia). lia.
Qed.

Lemma convert_size_MB_exact (a : Z) :
  Z.abs a < 2 ^ 53 ->
  convert_size a "MB" =
    Return (Format.fixed2 (a <? 0)%Z (div_half_even (Z.abs a * 100) 1024)
              ++ " MB")%string.
Proof.
  intros Ha. unfold convert_size. simpl String.eqb. cbv iota.
  destruct (Z.eq_dec a 0) as [->|Hnz]; [reflexivity|].
  rewrite int_truediv_1024 by assumption. rewrite bind_Return.
  unfold Format.float_comma_2f.
  pose proof (hundredths_exact (Z.to_pos (Z.abs a)) 0) as H.
  rewrite Z2Pos.id in H by lia. rewrite Z.sub_0_r in H.
  change (1024 * 2 ^ 0)%Z with 1024%Z in H.
  rewrite H; [reflexivity|lia|lia].
Qed.

Lemma convert_size_GB_exact (a : Z) :
  Z.abs a < 2 ^ 53 ->
  convert_size a "GB" =
    Return (Format.fixed2 (a <? 0)%Z
              (div_half_even (Z.abs a * 100) (1024 * 1024)) ++ " GB")%string.
Proof.
  intros Ha. unfold convert_size. simpl String.eqb. cbv iota.
  destruct (Z.eq_dec a 0) as [->|Hnz]; [reflexivity|].
  rewrite int_truediv_1024 by assumption. rewrite bind_Return.
  assert (Hp : Z.pos (Z.to_pos (Z.abs a)) < 2 ^ 53)
    by (rewrite Z2Pos.id; lia).
  pose proof (digits2_pos_bound _ 53 ltac:(lia) Hp) as Hd.
  rewrite truediv_int_1024;
    [|now apply mantissa53_digits|lia].
  rewrite bind_Return. unfold Format.float_comma_2f.
  pose proof (hundredths_exact (Z.to_pos (Z.abs a)) 10 Hp ltac:(lia)) as H.
  rewrite Z2Pos.id in H by lia.
  change (1024 * 2 ^ 10)%Z with (1024 * 1024)%Z in H.
  replace (Z.pos (digits2_pos (Z.to_pos (Z.abs a))) - 63 - 10)%Z
    with (Z.pos (digits2_pos (Z.to_pos (Z.abs a))) - 63 - 10)%Z in H by lia.
  now rewrite <- H.
Qed.
End FloatFacts.

(** ** The size formatter *)

Section FormatFacts.
Import Format.

Lemma without_commas_of_list L :
  without_commas (string_of_list_ascii L)
  = string_of_list_ascii (List.filter not_comma L).
Proof.
  induction L as [|c L IH]; [reflexivity|]. simpl. unfold not_comma at 1.
  destruct (Ascii.eqb c ","); simpl; now rewrite IH.
Qed.

Lemma filter_group_rev l : forall n,
  List.filter not_comma (group_rev n l) = List.filter not_comma l.
Proof.
  induction l as [|c l IH]; intros n; [reflexivity|].
  destruct n as [|[|[|[|n]]]]; simpl; now rewrite IH.
Qed.

Lemma filter_not_comma_rev (l : list ascii) :
  List.filter not_comma (List.rev l) = List.rev (List.filter not_comma l).
Proof.
  induction l as [|c l IH]; [reflexivity|]. simpl.
  rewrite List.filter_app, IH. simpl.
  destruct (not_comma c); simpl; [reflexivity|]. now rewrite List.app_nil_r.
Qed.

(** Grouping only inserts commas. *)
Lemma without_commas_thousands s :
  without_commas (thousands s) = without_commas s.
Proof.
  unfold thousands.
  rewrite without_commas_of_list, filter_not_comma_rev, filter_group_rev.
  rewrite filter_not_comma_rev, List.rev_involutive, <- without_commas_of_list.
  now rewrite string_of_list_ascii_of_string.
Qed.

Lemma without_commas_digits u :
  without_commas (NilEmpty.string_of_uint u) = NilEmpty.string_of_uint u.
Proof. induction u; simpl; now rewrite ?IHu. Qed.

Lemma without_commas_uint u :
  without_commas (NilZero.string_of_uint u) = NilZero.string_of_uint u.
Proof. destruct u; try reflexivity; apply without_commas_digits. Qed.

(** The KB text is the integer itself once the separators are removed. *)
Lemma int_comma_exact n : without_commas (int_comma n) = PyStr.of_int n.
Proof.
  unfold int_comma, PyStr.of_int, sign_str.
  destruct n as [|p|p]; [reflexivity| |].
  - change (Z.pos p <? 0) with false. cbv iota. rewrite sapp_nil_l.
    rewrite without_commas_thousands.
    change (Z.to_int (Z.abs (Z.pos p))) with (Decimal.Pos (Pos.to_uint p)).
    change (Z.to_int (Z.pos p)) with (Decimal.Pos (Pos.to_uint p)).
    apply without_commas_uint.
  - change (Z.neg p <? 0) with true. cbv iota. rewrite sapp_cons, sapp_nil_l.
    change (Z.to_int (Z.abs (Z.neg p))) with (Decimal.Pos (Pos.to_uint p)).
    change (Z.to_int (Z.neg p)) with (Decimal.Neg (Pos.to_uint p)).
    simpl. rewrite without_commas_thousands.
    now rewrite without_commas_uint.
Qed.

Lemma list_ascii_app (a b : string) :
  list_ascii_of_string (a ++ b)%string
  = list_ascii_of_string a ++ list_ascii_of_string b.
Proof.
  induction a as [|c a IH]; [reflexivity|].
  rewrite sapp_cons. simpl. now rewrite IH.
Qed.

Lemma string_of_list_app (u v : list ascii) :
  string_of_list_ascii (u ++ v)
  = (string_of_list_ascii u ++ string_of_list_ascii v)%string.
Proof.
  induction u as [|c u IH]; [reflexivity|].
  simpl. now rewrite IH, sapp_cons.
Qed.

(** Digits are grouped in threes from the right: a further group of three
    digits is set off by one comma. *)
Lemma thousands_group (a b : string) :
  a <> ""%string -> String.length b = 3%nat ->
  thousands (a ++ b)%string = (thousands a ++ "," ++ b)%string.
Proof.
  intros Ha Hb.
  destruct b as [|x [|y [|z [|w b]]]]; try discriminate. clear Hb.
  unfold thousands. rewrite list_ascii_app, List.rev_app_distr. simpl.
  destruct (List.rev (list_ascii_of_string a)) as [|c R] eqn:E.
  - exfalso. apply Ha.
    rewrite <- (string_of_list_ascii_of_string a).
    rewrite <- (List.rev_involutive (list_ascii_of_string a)), E.
    reflexivity.
  - simpl. rewrite <- !List.app_assoc. simpl.
    rewrite !string_of_list_app, sapp_assoc. reflexivity.
Qed.

Lemma thousands_short (s : string) :
  (String.length s <= 3)%nat -> thousands s = s.
Proof.
  destruct s as [|x [|y [|z [|w s]]]]; simpl; try reflexivity. lia.
Qed.
End FormatFacts.

Section ConvertSizeFacts.
Import PyFloat.

Lemma int_truediv_outcome a :
  (exists f, int_truediv a 1024 = Return f)
  \/ (exists msg, int_truediv a 1024 = Raise (OverflowError msg)).
Proof.
  unfold int_truediv. change (1024 =? 0) with false. cbv iota.
  destruct (a =? 0); [left; now eexists|].
  destruct (SFdiv_core_binary prec emax (Z.abs a) 0 (Z.abs 1024) 0)
    as [[q e] l].
  destruct (binary_round_aux prec emax _ q e l);
    try (left; now eexists). right. now eexists.
Qed.

Lemma truediv_int_returns x : exists f, truediv_int x 1024 = Return f.
Proof.
  unfold truediv_int.
  change (of_int 1024)
    with (Return (S754_finite false 4503599627370496 (-42))).
  rewrite bind_Return. now eexists.
Qed.

Lemma convert_size_valid_outcome size units :
  valid_unit units ->
  (exists text, convert_size size units = Return text)
  \/ (exists msg, convert_size size units = Raise (OverflowError msg)).
Proof.
  intros [-> | [-> | ->]]; unfold convert_size; simpl String.eqb; cbv iota.
  - left. now eexists.
  - destruct (int_truediv_outcome size) as [[f ->]|[msg ->]].
    + left. rewrite bind_Return. now eexists.
    + right. now eexists.
  - destruct (int_truediv_outcome size) as [[f ->]|[msg ->]].
    + left. rewrite bind_Return.
      destruct (truediv_int_returns f) as [g ->]. rewrite bind_Return.
      now eexists.
    + right. now eexists.
Qed.

Lemma convert_size_invalid size units :
  ~ valid_unit units ->
  convert_size size units = Raise (ValueError ("Invalid unit: " ++ units)%string).
Proof.
  intros H. unfold convert_size, valid_unit in *.
  destruct (String.eqb_spec units "KB"); [tauto|].
  destruct (String.eqb_spec units "MB"); [tauto|].
  destruct (String.eqb_spec units "GB"); [tauto|]. reflexivity.
Qed.

Lemma valid_unit_dec units : valid_unit units \/ ~ valid_unit units.
Proof.
  unfold valid_unit.
  destruct (String.eqb_spec units "KB"); [tauto|].
  destruct (String.eqb_spec units "MB"); [tauto|].
  destruct (String.eqb_spec units "GB"); tauto.
Qed.
End ConvertSizeFacts.



(** ** Worked examples *)

Example bytes_pattern_header :
  Re.bytes_pattern "102400 bytes each:" = Some "102400"%string.
Proof. reflexivity. Qed.

Example bytes_pattern_leftmost :
  Re.bytes_pattern "55 bytes 6 bytes" = Some "55"%string.
Proof. reflexivity. Qed.

Example bytes_pattern_absent : Re.bytes_pattern "12 files" = None.
Proof. reflexivity. Qed.

Example multi_save_pattern_simple :
  Re.multi_save_pattern "f (1).txt" = Some ("f", ".txt")%string.
Proof. reflexivity. Qed.

Example multi_save_pattern_last_extension :
  Re.multi_save_pattern "report.tar (12).gz"
  = Some ("report.tar", ".gz")%string.
Proof. reflexivity. Qed.

Example multi_save_pattern_plain : Re.multi_save_pattern "f.txt" = None.
Proof. reflexivity. Qed.

Example path_of_str_normalises :
  Path.to_str (Path.of_str "/a/./b//c/") = "/a/b/c"%string
  /\ Path.name (Path.of_str "/a/./b//c/") = "c"%string.
Proof. split; reflexivity. Qed.

Example int_parses_du_field :
  PyStr.int " 1_024 " = Some 1024 /\ PyStr.int "1__0" = None.
Proof. split; reflexivity. Qed.

Example convert_size_kb_grouping :
  convert_size 1234567 "KB" = Return "1,234,567 KB"%string.
Proof. vm_compute. reflexivity. Qed.

Example convert_size_sentinel :
  convert_size (-1) "GB" = Return "-0.00 GB"%string.
Proof. vm_compute. reflexivity. Qed.

Example convert_size_tie_to_even :
  convert_size 128 "MB" = Return "0.12 MB"%string.
Proof. vm_compute. reflexivity. Qed.

Example convert_size_gb :
  convert_size 123456789 "GB" = Return "117.74 GB"%string.
Proof. vm_compute. reflexivity. Qed.

(** * Further properties of the code *)

(** ** The parser on any text *)

Section ParserAnyText.
Import Parser.

Lemma groups_of_layout lines :
  lines = fst (groups_of lines)
            ++ List.concat (List.map render (snd (groups_of lines)))
  /\ Forall (fun l => kind_of l <> Header) (fst (groups_of lines))
  /\ Forall grouped (snd (groups_of lines)).
Proof.
  induction lines as [|l lines (IH1 & IH2 & IH3)]; simpl.
  - repeat constructor.
  - destruct (groups_of lines) as [pre gs]. simpl in *.
    destruct (kind_of l) eqn:Hk; simpl.
    + split; [now f_equal|]. split; [|assumption].
      constructor; [congruence|assumption].
    + split; [unfold render at 1; simpl; now f_equal|].
      split; [constructor|]. constructor; [|assumption]. now split.
    + split; [now f_equal|]. split; [|assumption].
      constructor; [congruence|assumption].
Qed.

Lemma finish_any lines :
  finish (run init lines) =
    flush (members (fst (groups_of lines))) 0
      ++ emitted 0 (snd (groups_of lines)).
Proof.
  destruct (groups_of_layout lines) as (Hl & Hpre & Hgs).
  rewrite Hl at 1. rewrite run_app, (run_body init _ Hpre).
  rewrite run_groups by assumption. reflexivity.
Qed.

Lemma digit_value_nonneg c : Re.digit c = true -> 0 <= PyStr.digit_value c.
Proof.
  unfold Re.digit, PyStr.between, PyStr.digit_value.
  intros [H _]%andb_prop. apply N.leb_le in H. lia.
Qed.

Lemma int_of_digits_from_nonneg s : forall acc,
  0 <= acc -> all_chars Re.digit s = true ->
  0 <= PyStr.int_of_digits_from acc s.
Proof.
  induction s as [|c s IH]; intros acc Hacc; simpl; [easy|].
  intros [Hc Hs]%andb_prop. apply IH; [|exact Hs].
  pose proof (digit_value_nonneg c Hc). lia.
Qed.

Lemma header_size_nonneg current h :
  0 <= current -> 0 <= header_size current h.
Proof.
  intros Hc. unfold header_size.
  destruct (Re.bytes_pattern h) as [d|] eqn:E; [|exact Hc].
  destruct (bytes_pattern_sound _ _ E) as (_ & _ & _ & _ & Hd).
  apply Z.div_pos; [|lia]. now apply int_of_digits_from_nonneg.
Qed.

Lemma flush_Forall_size g size :
  Forall (fun t => size_of t = size) (flush g size).
Proof. apply List.Forall_forall. intros t. apply flush_size. Qed.

Lemma emitted_nonneg groups : forall size,
  0 <= size -> Forall (fun t => 0 <= size_of t) (emitted size groups).
Proof.
  induction groups as [|g rest IH]; intros size Hs; simpl; [constructor|].
  pose proof (header_size_nonneg size (header g) Hs) as Hh.
  apply List.Forall_app. split; [|now apply IH].
  eapply List.Forall_impl; [|apply flush_Forall_size].
  simpl. intros t ->. exact Hh.
Qed.
End ParserAnyText.

(** X1. Whatever the text, the parser reads it as the lines before the
    first header followed by one group per header: the paths before the
    first header are paired like a group of size 0, and each later group
    carries the size in force below its header. *)
Theorem parse_any_text (out : string) :
  let lines := PyStr.split "010" out in
  let pre := fst (groups_of lines) in
  let groups := snd (groups_of lines) in
  lines = pre ++ List.concat (List.map render groups)
  /\ Forall (fun l => kind_of l <> Header) pre
  /\ Forall grouped groups
  /\ Parser.parse out =
       sort_desc Parser.size_of
         (Parser.flush (members pre) 0 ++ emitted 0 groups).
Proof.
  intros lines pre groups.
  destruct (groups_of_layout lines) as (Hl & Hpre & Hgs).
  split; [exact Hl|]. split; [exact Hpre|]. split; [exact Hgs|].
  unfold Parser.parse. fold lines. now rewrite finish_any.
Qed.

(** X2. No size is negative: every triple the parser returns carries a
    size of at least 0, whatever the text. *)
Theorem parse_sizes_nonnegative (out : string) :
  Forall (fun t => 0 <= Parser.size_of t) (Parser.parse out).
Proof.
  unfold Parser.parse. rewrite finish_any.
  eapply Permutation_Forall; [symmetry; apply sort_desc_perm|].
  apply List.Forall_app. split.
  - eapply List.Forall_impl; [|apply flush_Forall_size]. simpl. intros t ->. lia.
  - apply emitted_nonneg. lia.
Qed.

Section Stability.
Context {A : Type} (key : A -> Z).

Lemma filter_insert_desc k x l :
  List.filter (fun y => key y =? k) (insert_desc key x l)
  = List.filter (fun y => key y =? k) (x :: l).
Proof.
  induction l as [|y l IH]; [reflexivity|]. simpl insert_desc.
  destruct (Z.ltb_spec (key x) (key y)) as [Hlt|Hge]; [|reflexivity].
  simpl in *. rewrite IH.
  destruct (Z.eqb_spec (key x) k) as [Hx|Hx];
    destruct (Z.eqb_spec (key y) k) as [Hy|Hy]; try reflexivity. lia.
Qed.

Lemma filter_sort_desc k l :
  List.filter (fun y => key y =? k) (sort_desc key l)
  = List.filter (fun y => key y =? k) l.
Proof.
  induction l as [|x l IH]; [reflexivity|]. simpl sort_desc.
  rewrite filter_insert_desc. simpl. now rewrite IH.
Qed.
End Stability.

(** X3. The final sort is stable: the triples of one size appear in the
    returned list in the order in which the parser emitted them. *)
Theorem parse_keeps_order_within_size (out : string) (k : Z) :
  List.filter (same_size k) (Parser.parse out)
  = List.filter (same_size k)
      (Parser.finish (Parser.run Parser.init (PyStr.split "010" out))).
Proof. unfold Parser.parse, same_size. apply filter_sort_desc. Qed.

Section NoPathLines.
Import Parser.

Lemma run_no_paths lines : forall st,
  current_group st = [] ->
  Forall (fun l => kind_of l <> FilePath) lines ->
  duplicates (run st lines) = duplicates st
  /\ current_group (run st lines) = [].
Proof.
  induction lines as [|l lines IH]; intros st Hg Hl; [now split|].
  inversion Hl as [|? ? Hk Hrest]; subst. simpl.
  destruct (kind_of l) eqn:E; [| |congruence].
  - rewrite step_blank by assumption. now apply IH.
  - rewrite step_header by assumption.
    destruct (IH {| duplicates := duplicates st ++ flush (current_group st) (current_size st);
                    current_group := [];
                    current_size := header_size (current_size st) l |}
                 eq_refl Hrest) as [H1 H2].
    rewrite H1, H2. simpl. rewrite Hg. simpl. now rewrite List.app_nil_r.
Qed.
End NoPathLines.

(** X4. A text without a file-path line (empty, blank lines, headers only)
    gives no triple at all. *)
Theorem parse_without_paths (out : string) :
  Forall (fun l => kind_of l <> FilePath) (PyStr.split "010" out) ->
  Parser.parse out = [].
Proof.
  intros H. unfold Parser.parse.
  destruct (run_no_paths _ Parser.init eq_refl H) as [Hd Hg].
  unfold Parser.finish. rewrite Hg, Hd. reflexivity.
Qed.

Lemma parse_without_paths_witness :
  Parser.parse (unlines [""; "2048 bytes each:"; "   "; "7 files"; ""]) = [].
Proof.
  apply parse_without_paths. vm_compute.
  repeat (constructor; [discriminate|]). constructor.
Defined.

Section SameGroup.
Import Parser.

Lemma flush_shape ms size t :
  In t (flush ms size) ->
  exists first later,
    ms = first :: later /\ fst (fst t) = first /\ In (snd (fst t)) later.
Proof.
  destruct ms as [|first later]; [intros []|].
  rewrite flush_cons, List.in_map_iff. intros (p & <- & Hp).
  now exists first, later.
Qed.

Lemma emitted_group groups : forall size t,
  In t (emitted size groups) ->
  exists g size', In g groups /\ In t (flush (members (body g)) size').
Proof.
  induction groups as [|g rest IH]; intros size t; simpl; [intros []|].
  intros [H|H]%List.in_app_or.
  - exists g, (header_size size (header g)). split; [now left|exact H].
  - destruct (IH _ _ H) as (g' & s' & Hg & Ht).
    exists g', s'. split; [now right|exact Ht].
Qed.
End SameGroup.

Lemma parse_member_shape out t :
  In t (Parser.parse out) ->
  exists first later,
    (first :: later = members (fst (groups_of (PyStr.split "010" out)))
     \/ exists g, In g (snd (groups_of (PyStr.split "010" out)))
                  /\ first :: later = members (body g))
    /\ fst (fst t) = first /\ In (snd (fst t)) later.
Proof.
  intros Ht. unfold Parser.parse in Ht.
  apply (Permutation_in _ (sort_desc_perm _ _)) in Ht.
  rewrite finish_any in Ht. apply List.in_app_or in Ht as [Ht|Ht].
  - destruct (flush_shape _ _ _ Ht) as (first & later & Hm & Hf & Hl).
    exists first, later. split; [left; now symmetry|now split].
  - destruct (emitted_group _ _ _ Ht) as (g & s & Hg & Hin).
    destruct (flush_shape _ _ _ Hin) as (first & later & Hm & Hf & Hl).
    exists first, later.
    split; [right; exists g; split; [exact Hg|now symmetry]|now split].
Qed.

(** X5. The two paths of a returned triple always come from one group: the
    original is the first path listed in that group (or before the first
    header) and the duplicate is listed later in the same group. *)
Theorem parse_pairs_within_group (out : string) :
  let lines := PyStr.split "010" out in
  Forall (fun t =>
            exists first later,
              (first :: later = members (fst (groups_of lines))
               \/ exists g, In g (snd (groups_of lines))
                            /\ first :: later = members (body g))
              /\ fst (fst t) = first /\ In (snd (fst t)) later)
         (Parser.parse out).
Proof.
  intros lines. apply List.Forall_forall. intros t Ht.
  now apply parse_member_shape.
Qed.

(** ** The multi-save pattern, exactly *)

Section PatternFacts.
Local Open Scope string_scope.

Lemma all_chars_app cls a b :
  all_chars cls (a ++ b) = all_chars cls a && all_chars cls b.
Proof.
  induction a as [|c a IH]; [reflexivity|].
  rewrite sapp_cons. simpl. now rewrite IH, andb_assoc.
Qed.

(** No way of taking the class: [plus] fails. *)
Lemma plus_none {R : Type} cls s (k : string -> string -> option R) :
  forall acc,
    (forall x y, s = x ++ y -> x <> "" -> all_chars cls x = true ->
                 k (acc ++ x) y = None) ->
    Re.plus cls s acc k = None.
Proof.
  induction s as [|c s IH]; intros acc H; simpl; [reflexivity|].
  destruct (cls c) eqn:Hc; [|reflexivity].
  rewrite IH.
  - apply (H (String c "") s); [reflexivity|discriminate|].
    simpl. now rewrite Hc.
  - intros x y -> Hx Hall. rewrite sapp_assoc.
    apply (H (String c x) y); [reflexivity|discriminate|].
    simpl. now rewrite Hc.
Qed.

(** [plus] returns the first success from the longest run downwards. *)
Lemma plus_longest {R : Type} cls d rest (k : string -> string -> option R) r :
  d <> "" -> all_chars cls d = true ->
  forall acc,
    k (acc ++ d) rest = Some r ->
    (forall x y, rest = x ++ y -> x <> "" -> all_chars cls x = true ->
                 k (acc ++ d ++ x) y = None) ->
    Re.plus cls (d ++ rest) acc k = Some r.
Proof.
  intros Hne Hd. induction d as [|c d IH]; [contradiction|].
  intros acc Hk Hlonger. rewrite sapp_cons. simpl in *.
  apply andb_prop in Hd as [Hc Hd]. rewrite Hc.
  destruct d as [|c' d].
  - rewrite sapp_nil_l. rewrite plus_none; [exact Hk|].
    intros x y Hxy Hx Hall. rewrite sapp_assoc. now apply Hlonger.
  - rewrite (IH ltac:(discriminate) Hd (acc ++ String c "")); [reflexivity| |].
    + now rewrite sapp_assoc.
    + intros x y Hxy Hx Hall. rewrite sapp_assoc. now apply Hlonger.
Qed.

Lemma plus_none_inv {R : Type} cls s (k : string -> string -> option R) :
  forall acc,
    Re.plus cls s acc k = None ->
    forall x y, s = x ++ y -> x <> "" -> all_chars cls x = true ->
                k (acc ++ x) y = None.
Proof.
  induction s as [|c s IH]; intros acc E x y Hxy Hx Hall.
  - destruct x; [contradiction|discriminate].
  - destruct x as [|a x]; [contradiction|].
    rewrite sapp_cons in Hxy. injection Hxy as <- ->.
    simpl in E, Hall. apply andb_prop in Hall as [Ha Hall]. rewrite Ha in E.
    destruct (Re.plus cls (x ++ y) (acc ++ String c "") k) eqn:E2;
      [discriminate|].
    destruct x as [|b x]; [exact E|].
    specialize (IH _ E2 (String b x) y eq_refl ltac:(discriminate) Hall).
    now rewrite sapp_assoc in IH.
Qed.

(** What [plus] returns is the longest run for which the rest matches. *)
Lemma plus_sound_longest {R : Type} cls s (k : string -> string -> option R) r :
  forall acc,
    Re.plus cls s acc k = Some r ->
    exists m rest,
      s = m ++ rest /\ m <> "" /\ all_chars cls m = true
      /\ k (acc ++ m) rest = Some r
      /\ (forall x y, rest = x ++ y -> x <> "" -> all_chars cls x = true ->
                      k (acc ++ m ++ x) y = None).
Proof.
  induction s as [|c s IH]; intros acc; simpl; [discriminate|].
  destruct (cls c) eqn:Hc; [|discriminate].
  destruct (Re.plus cls s (acc ++ String c "") k) as [r'|] eqn:E.
  - intros [= ->]. destruct (IH _ E) as (m & rest & -> & _ & Hm & Hk & Hl).
    exists (String c m), rest. rewrite sapp_cons. simpl. rewrite Hc, Hm.
    split; [reflexivity|]. split; [discriminate|]. split; [reflexivity|].
    split; [now rewrite sapp_assoc in Hk|].
    intros x y Hxy Hx Hall. specialize (Hl x y Hxy Hx Hall).
    now rewrite !sapp_assoc in Hl.
  - intros Hk. exists (String c ""), s. simpl. rewrite Hc.
    split; [reflexivity|]. split; [discriminate|]. split; [reflexivity|].
    split; [assumption|].
    intros x y Hxy Hx Hall.
    pose proof (plus_none_inv _ _ _ _ E x y Hxy Hx Hall) as H.
    now rewrite sapp_assoc in H.
Qed.
End PatternFacts.

Section MultiSavePattern.
Local Open Scope string_scope.

Lemma all_chars_impl (p q : ascii -> bool) s :
  (forall c, p c = true -> q c = true) ->
  all_chars p s = true -> all_chars q s = true.
Proof.
  intros Hpq. induction s as [|c s IH]; [reflexivity|]. simpl.
  intros [Hc Hs]%andb_prop. now rewrite (Hpq c Hc), IH.
Qed.

Lemma period_in_the_way a b :
  all_chars Re.not_period (a ++ "." ++ b) = false.
Proof.
  rewrite all_chars_app. rewrite sapp_cons. simpl.
  now rewrite andb_false_r.
Qed.

(** A suffix that still holds a period starts before the first period. *)
Lemma split_before_period A : forall x y A' e e',
  all_chars Re.not_period A = true ->
  all_chars Re.not_period e = true ->
  all_chars Re.not_period A' = true ->
  A ++ "." ++ e = x ++ y ->
  y = A' ++ "." ++ e' ->
  x ++ A' = A.
Proof.
  induction A as [|c A IH]; intros x y A' e e' HA He HA' HT Hy.
  - rewrite sapp_nil_l, sapp_cons, sapp_nil_l in HT.
    destruct x as [|c x].
    + rewrite sapp_nil_l in HT. rewrite <- HT in Hy. clear HT.
      destruct A' as [|c' A']; [reflexivity|].
      rewrite !sapp_cons in Hy. injection Hy as Hc _. subst c'.
      simpl in HA'. discriminate.
    + rewrite sapp_cons in HT. injection HT as _ HT.
      rewrite HT, Hy, all_chars_app, period_in_the_way in He.
      now rewrite andb_false_r in He.
  - simpl in HA. apply andb_prop in HA as [Hc HA].
    rewrite sapp_cons in HT. destruct x as [|c' x].
    + rewrite sapp_nil_l in *. rewrite <- HT in Hy. clear HT.
      destruct A' as [|a A'].
      * rewrite sapp_nil_l, sapp_cons in Hy. injection Hy as Hy _.
        subst c. discriminate.
      * rewrite sapp_cons in Hy. injection Hy as Ha Hy. subst a.
        f_equal. simpl in HA'. apply andb_prop in HA' as [_ HA'].
        now apply (IH "" (A' ++ "." ++ e') A' e e').
    + rewrite !sapp_cons in *. injection HT as Hcc HT. subst c'. f_equal.
      now apply (IH x y A' e e').
Qed.

Lemma digit_not_space c : Re.digit c = true -> negb (Ascii.eqb c " ") = true.
Proof.
  destruct (Ascii.eqb_spec c " ") as [->|]; [discriminate|reflexivity].
Qed.

Lemma digit_not_period c : Re.digit c = true -> Re.not_period c = true.
Proof.
  unfold Re.not_period.
  destruct (Ascii.eqb_spec c ".") as [->|]; [discriminate|reflexivity].
Qed.

(** The part after the stem cannot start later than it does. *)
Lemma no_later_start ds e x ds' e' :
  all_chars Re.digit ds = true ->
  all_chars Re.not_period e = true ->
  all_chars Re.digit ds' = true ->
  x <> "" ->
  " (" ++ ds ++ ")." ++ e = x ++ " (" ++ ds' ++ ")." ++ e' ->
  False.
Proof.
  intros Hds He Hds' Hx HT.
  assert (HA : forall d, all_chars Re.digit d = true ->
                         all_chars Re.not_period (" (" ++ d ++ ")") = true).
  { intros d Hd. rewrite !sapp_cons, sapp_nil_l. simpl.
    rewrite all_chars_app. simpl.
    now rewrite (all_chars_impl _ _ d digit_not_period Hd). }
  assert (E : x ++ (" (" ++ ds' ++ ")") = " (" ++ ds ++ ")").
  { apply (split_before_period _ x (" (" ++ ds' ++ ")." ++ e')
             _ e e'); auto.
    - rewrite <- HT. rewrite !sapp_assoc. reflexivity.
    - rewrite !sapp_assoc. reflexivity. }
  destruct x as [|c1 x]; [contradiction|].
  rewrite !sapp_cons, !sapp_nil_l in E. injection E as -> E.
  destruct x as [|c2 x].
  - rewrite sapp_nil_l in E. discriminate.
  - rewrite sapp_cons in E. injection E as -> E.
    assert (H : all_chars (fun c => negb (Ascii.eqb c " ")) (ds ++ ")") = true).
    { rewrite all_chars_app.
      now rewrite (all_chars_impl _ _ ds digit_not_space Hds). }
    rewrite <- E, !all_chars_app in H. simpl in H.
    now rewrite andb_false_r in H.
Qed.

Lemma after_stem_sound g1 r1 r :
  after_stem g1 r1 = Some r ->
  exists ds e,
    r1 = " (" ++ ds ++ ")." ++ e /\ r = (g1, "." ++ e)
    /\ ds <> "" /\ all_chars Re.digit ds = true
    /\ e <> "" /\ all_chars Re.not_period e = true.
Proof.
  unfold after_stem. intros H.
  apply lit_sound in H as (r2 & -> & H).
  apply plus_sound in H as (ds & r3 & -> & Hds & Hdd & H).
  apply lit_sound in H as (r4 & -> & H).
  apply lit_sound in H as (r5 & -> & H).
  apply plus_sound_longest in H as (e & r6 & -> & He & Hee & H & Hlong).
  rewrite sapp_nil_l in H.
  assert (Hr6 : r6 = "").
  { destruct r6 as [|c [|c' r6]]; [reflexivity| |discriminate].
    simpl in H. destruct (Ascii.eqb_spec c "010") as [->|]; [|discriminate].
    specialize (Hlong (String "010" "") "" eq_refl ltac:(discriminate) eq_refl).
    discriminate. }
  subst r6. simpl in H. injection H as <-.
  exists ds, e. rewrite sapp_nil_r.
  split; [reflexivity|]. split; [reflexivity|]. auto.
Qed.

Lemma after_stem_complete g1 ds e :
  ds <> "" -> all_chars Re.digit ds = true ->
  e <> "" -> all_chars Re.not_period e = true ->
  after_stem g1 (" (" ++ ds ++ ")." ++ e) = Some (g1, "." ++ e).
Proof.
  intros Hds Hdd He Hee. unfold after_stem, Re.lit.
  rewrite startswith_complete.
  apply plus_complete; [exact Hds|exact Hdd|reflexivity|]. cbv beta.
  change (")." ++ e) with (")" ++ "." ++ e).
  rewrite (startswith_complete ")" ("." ++ e)).
  rewrite (startswith_complete "." e).
  rewrite <- (sapp_nil_r e) at 1.
  apply plus_complete; [exact He|exact Hee|exact I|]. reflexivity.
Qed.

Lemma multi_save_pattern_sound_exact name g1 g2 :
  Re.multi_save_pattern name = Some (g1, g2) ->
  exists ds e,
    name = g1 ++ " (" ++ ds ++ ")." ++ e /\ g2 = "." ++ e
    /\ g1 <> "" /\ all_chars Re.dot g1 = true
    /\ ds <> "" /\ all_chars Re.digit ds = true
    /\ e <> "" /\ all_chars Re.not_period e = true.
Proof.
  change (Re.multi_save_pattern name)
    with (Re.plus Re.dot name "" after_stem).
  intros H. apply plus_sound in H as (m & r1 & -> & Hm & Hmm & H).
  rewrite sapp_nil_l in H.
  apply after_stem_sound in H as (ds & e & -> & [= -> ->] & H).
  exists ds, e. tauto.
Qed.

Lemma multi_save_pattern_complete g1 ds e :
  g1 <> "" /\ all_chars Re.dot g1 = true
  /\ ds <> "" /\ all_chars Re.digit ds = true
  /\ e <> "" /\ all_chars Re.not_period e = true ->
  Re.multi_save_pattern (g1 ++ " (" ++ ds ++ ")." ++ e)
  = Some (g1, "." ++ e).
Proof.
  intros (Hg & Hgg & Hds & Hdd & He & Hee).
  change (Re.multi_save_pattern (g1 ++ " (" ++ ds ++ ")." ++ e))
    with (Re.plus Re.dot (g1 ++ " (" ++ ds ++ ")." ++ e) "" after_stem).
  apply plus_longest; [exact Hg|exact Hgg| |].
  - rewrite sapp_nil_l. now apply after_stem_complete.
  - intros x y Hxy Hx _. rewrite sapp_nil_l.
    destruct (after_stem (g1 ++ x) y) as [r|] eqn:E; [|reflexivity].
    exfalso. apply after_stem_sound in E as (ds' & e' & -> & _ & _ & Hdd' & _).
    exact (no_later_start ds e x ds' e' Hdd Hee Hdd' Hx Hxy).
Qed.
End MultiSavePattern.

(** X6. The multi-save pattern matches exactly the names
    [stem (digits).ext] whose extension is the last one (no further period),
    with a non-empty stem free of newlines, and it yields the stem and the
    extension: the canonical name is the name without its [" (digits)"]. *)
Theorem multi_save_pattern_exact (name g1 g2 : string) :
  Re.multi_save_pattern name = Some (g1, g2) <->
  exists ds e,
    name = (g1 ++ " (" ++ ds ++ ")." ++ e)%string /\ g2 = ("." ++ e)%string
    /\ g1 <> ""%string /\ all_chars Re.dot g1 = true
    /\ ds <> ""%string /\ all_chars Re.digit ds = true
    /\ e <> ""%string /\ all_chars Re.not_period e = true.
Proof.
  split.
  - apply multi_save_pattern_sound_exact.
  - intros (ds & e & -> & -> & H). now apply multi_save_pattern_complete.
Qed.

(** ** The matcher on the two paths of a triple, and after a plain name *)

Section MatcherFacts.
Import MultiSave.

Lemma step_init a :
  step init a =
    {| original_names := <[Path.name a := a]> ∅; multi_saves := [] |}.
Proof.
  unfold step, init. simpl.
  destruct (Re.multi_save_pattern (Path.name a)) as [[g1 g2]|]; [|reflexivity].
  now rewrite lookup_empty.
Qed.

Lemma pair_result a b :
  find_browser_multi_saves [a; b] =
    match Re.multi_save_pattern (Path.name b) with
    | Some (g1, g2) =>
        if String.eqb (Path.name a) (g1 ++ g2)%string then [b] else []
    | None => []
    end.
Proof.
  unfold find_browser_multi_saves, run. simpl. rewrite step_init.
  unfold step. simpl.
  destruct (Re.multi_save_pattern (Path.name b)) as [[g1 g2]|]; [|reflexivity].
  rewrite lookup_insert. destruct (String.eqb_spec (Path.name a) (g1 ++ g2)%string).
  - now rewrite decide_True.
  - rewrite decide_False by assumption. now rewrite lookup_empty.
Qed.

(** A registered name stays registered. *)
Lemma step_keeps_name st x k :
  is_Some (original_names st !! k) ->
  is_Some (original_names (step st x) !! k).
Proof.
  intros H. unfold step.
  destruct (Re.multi_save_pattern (Path.name x)) as [[g1 g2]|];
    [destruct (original_names st !! (g1 ++ g2)%string)|]; simpl;
    rewrite ?lookup_insert_is_Some;
    try assumption;
    (destruct (decide (Path.name x = k)); [now left|right; now split]).
Qed.

Lemma run_keeps_name l : forall st k,
  is_Some (original_names st !! k) ->
  is_Some (original_names (run st l) !! k).
Proof.
  induction l as [|x l IH]; intros st k H; [exact H|].
  simpl. apply IH. now apply step_keeps_name.
Qed.

Lemma step_plain_registers st q :
  Re.multi_save_pattern (Path.name q) = None ->
  is_Some (original_names (step st q) !! Path.name q).
Proof.
  intros H. unfold step. rewrite H. simpl.
  rewrite lookup_insert_is_Some. now left.
Qed.

Lemma run_keeps_reported l : forall st p,
  In p (multi_saves st) -> In p (multi_saves (run st l)).
Proof.
  intros st p H. destruct (run_sublist l st) as (r & -> & _).
  apply List.in_or_app. now left.
Qed.

Lemma step_reports st p g1 g2 :
  Re.multi_save_pattern (Path.name p) = Some (g1, g2) ->
  is_Some (original_names st !! (g1 ++ g2)%string) ->
  In p (multi_saves (step st p)).
Proof.
  intros Hm [v Hv]. unfold step. rewrite Hm, Hv. simpl.
  apply List.in_or_app. right. now left.
Qed.
End MatcherFacts.

(** X7. On the two paths of a triple the matcher reports the second path
    alone, and does so exactly when the second name has the multi-save form
    and the first name is its canonical name; otherwise it reports
    nothing. *)
Theorem multi_saves_of_a_pair (a b : Path.t) :
  let is_copy :=
    exists g1 g2,
      Re.multi_save_pattern (Path.name b) = Some (g1, g2)
      /\ Path.name a = (g1 ++ g2)%string in
  (find_browser_multi_saves [a; b] = [b] <-> is_copy)
  /\ (find_browser_multi_saves [a; b] = [] <-> ~ is_copy).
Proof.
  intros is_copy. subst is_copy. rewrite pair_result.
  destruct (Re.multi_save_pattern (Path.name b)) as [[g1 g2]|] eqn:E.
  - destruct (String.eqb_spec (Path.name a) (g1 ++ g2)%string) as [Heq|Hne].
    + assert (Hc : exists h1 h2, Some (g1, g2) = Some (h1, h2)
                                 /\ Path.name a = (h1 ++ h2)%string)
        by now exists g1, g2.
      split; split.
      * intros _. exact Hc.
      * reflexivity.
      * discriminate.
      * intros H. contradiction.
    + assert (Hc : ~ exists h1 h2, Some (g1, g2) = Some (h1, h2)
                                   /\ Path.name a = (h1 ++ h2)%string).
      { intros (h1 & h2 & [= <- <-] & H). contradiction. }
      split; split.
      * discriminate.
      * intros H. contradiction.
      * intros _. exact Hc.
      * reflexivity.
  - assert (Hc : ~ exists h1 h2, @None (string * string) = Some (h1, h2)
                                 /\ Path.name a = (h1 ++ h2)%string).
    { intros (h1 & h2 & [=] & _). }
    split; split.
    + discriminate.
    + intros H. contradiction.
    + intros _. exact Hc.
    + reflexivity.
Qed.

(** X8. Detection depends on the order of the pair: with the plain name
    first the copy is reported, with the copy first nothing is. *)
Theorem multi_save_detection_is_ordered
    (a b : Path.t) (stem ds e : string) :
  Path.name a = (stem ++ "." ++ e)%string ->
  Path.name b = (stem ++ " (" ++ ds ++ ")." ++ e)%string ->
  stem <> ""%string -> all_chars Re.dot stem = true ->
  ds <> ""%string -> all_chars Re.digit ds = true ->
  e <> ""%string -> all_chars Re.not_period e = true ->
  find_browser_multi_saves [a; b] = [b]
  /\ find_browser_multi_saves [b; a] = [].
Proof.
  intros Ha Hb Hs Hss Hd Hdd He Hee.
  assert (Hm : Re.multi_save_pattern (Path.name b)
               = Some (stem, ("." ++ e)%string)).
  { rewrite Hb. apply multi_save_pattern_complete. tauto. }
  split.
  - rewrite pair_result, Hm, Ha. now rewrite String.eqb_refl.
  - rewrite pair_result.
    destruct (Re.multi_save_pattern (Path.name a)) as [[g1 g2]|] eqn:E;
      [|reflexivity].
    destruct (String.eqb_spec (Path.name b) (g1 ++ g2)%string) as [Heq|];
      [|reflexivity].
    exfalso. apply multi_save_pattern_shorter in E.
    rewrite <- Heq, Hb, Ha in E.
    repeat first [rewrite sapp_length in E | progress simpl in E]. lia.
Qed.

Lemma multi_save_detection_is_ordered_witness :
  find_browser_multi_saves
    [Path.of_str "/d/report.tar.gz"; Path.of_str "/d/report.tar (12).gz"]
    = [Path.of_str "/d/report.tar (12).gz"]
  /\ find_browser_multi_saves
       [Path.of_str "/d/report.tar (12).gz"; Path.of_str "/d/report.tar.gz"]
     = [].
Proof.
  apply (multi_save_detection_is_ordered
           (Path.of_str "/d/report.tar.gz")
           (Path.of_str "/d/report.tar (12).gz") "report.tar" "12" "gz");
    solve [reflexivity | discriminate].
Defined.

(** X9. In a list of any length, a path of multi-save form is reported
    whenever an earlier path has a plain name (one the pattern does not
    match) equal to its canonical name. *)
Theorem multi_save_after_plain_original
    (pre : list Path.t) (q : Path.t) (mid : list Path.t) (p : Path.t)
    (post : list Path.t) (g1 g2 : string) :
  Re.multi_save_pattern (Path.name q) = None ->
  Re.multi_save_pattern (Path.name p) = Some (g1, g2) ->
  Path.name q = (g1 ++ g2)%string ->
  In p (find_browser_multi_saves (pre ++ q :: mid ++ p :: post)).
Proof.
  intros Hq Hp Hn. unfold find_browser_multi_saves, MultiSave.run.
  rewrite List.fold_left_app. simpl.
  rewrite List.fold_left_app. simpl.
  apply run_keeps_reported. apply (step_reports _ _ g1 g2 Hp).
  rewrite <- Hn. apply run_keeps_name. now apply step_plain_registers.
Qed.

Lemma multi_save_after_plain_original_witness :
  In (Path.of_str "/b/f (2).txt")
     (find_browser_multi_saves
        ([Path.of_str "/x/g.txt"] ++ Path.of_str "/a/f.txt"
           :: [Path.of_str "/a/f (1).txt"] ++ Path.of_str "/b/f (2).txt"
           :: [])).
Proof.
  apply (multi_save_after_plain_original
           [Path.of_str "/x/g.txt"] (Path.of_str "/a/f.txt")
           [Path.of_str "/a/f (1).txt"] (Path.of_str "/b/f (2).txt") []
           "f" ".txt"); reflexivity.
Defined.

(** ** The deletion loop: what is removed and what is counted *)

Section LoopFacts.
Import Cleanup.

Lemma body_cases st original dup size :
  body st (original, dup, size) = (st, None)
  \/ (exists e, body st (original, dup, size) = (st, Some e))
  \/ (exists z,
        files st dup = Some z /\ original <> dup
        /\ find_browser_multi_saves [original; dup] = [dup]
        /\ body st (original, dup, size) =
             ({| files := unlink dup (files st);
                 deleted_amount := deleted_amount st + z |}, None)).
Proof.
  unfold body.
  destruct (two_paths original dup) as [->|[Hms Hne]]; [now left|].
  rewrite Hms.
  destruct (convert_size size "MB") as [text|e]; [|right; left; now eexists].
  simpl. destruct (files st dup) as [z|] eqn:E.
  - right. right. exists z. now repeat split.
  - right. left. now eexists.
Qed.

Lemma loop_cons d rest st :
  loop (d :: rest) st =
    match body st d with
    | (st1, None) => loop rest st1
    | stopped => stopped
    end.
Proof. reflexivity. Qed.

Lemma loop_app a : forall b st,
  loop (a ++ b) st =
    match loop a st with
    | (st1, None) => loop b st1
    | stopped => stopped
    end.
Proof.
  induction a as [|d a IH]; intros b st; [reflexivity|].
  simpl. destruct (body st d) as [st1 [e|]]; [reflexivity|apply IH].
Qed.

Lemma sum_sizes_ext fs fs' ps :
  (forall p, In p ps -> fs p = fs' p) -> sum_sizes fs ps = sum_sizes fs' ps.
Proof.
  induction ps as [|p ps IH]; intros H; [reflexivity|]. simpl.
  rewrite (H p) by now left. rewrite IH; [reflexivity|].
  intros q Hq. apply H. now right.
Qed.

Lemma loop_removed ds : forall st st' e,
  loop ds st = (st', e) ->
  exists removed,
    List.NoDup removed
    /\ Forall (fun p => exists o size,
                          In (o, p, size) ds
                          /\ find_browser_multi_saves [o; p] = [p]) removed
    /\ Forall (fun p => is_Some (files st p)) removed
    /\ (forall q, In q removed -> files st' q = None)
    /\ (forall q, ~ In q removed -> files st' q = files st q)
    /\ deleted_amount st' = deleted_amount st + sum_sizes (files st) removed.
Proof.
  induction ds as [|[[o dp] size] ds IH]; intros st st' e.
  - simpl. intros [= <- <-]. exists []. simpl.
    repeat split; try constructor; try tauto; lia.
  - rewrite loop_cons.
    destruct (body_cases st o dp size)
      as [Hb|[[e0 Hb]|(z & Hz & Hne & Hms & Hb)]];
      rewrite Hb.
    + intros H. destruct (IH _ _ _ H) as (removed & H1 & H2 & H3 & H4 & H5 & H6).
      exists removed. repeat split; try assumption.
      eapply List.Forall_impl; [|exact H2].
      intros p (o' & s' & Hin & Hr). exists o', s'. split; [now right|exact Hr].
    + intros [= <- <-]. exists []. simpl.
      repeat split; try constructor; try tauto; lia.
    + intros H. destruct (IH _ _ _ H) as (removed & H1 & H2 & H3 & H4 & H5 & H6).
      simpl in *.
      assert (Hnot : ~ In dp removed).
      { intros Hin. rewrite List.Forall_forall in H3.
        destruct (H3 _ Hin) as [v Hv]. unfold unlink in Hv.
        now rewrite decide_True in Hv. }
      assert (Hsame : forall p, In p removed -> unlink dp (files st) p = files st p).
      { intros p Hp. unfold unlink. rewrite decide_False; [reflexivity|].
        intros ->. contradiction. }
      exists (dp :: removed).
      split; [|split; [|split; [|split; [|split]]]].
      * now constructor.
      * constructor; [exists o, size; split; [now left|exact Hms]|].
        eapply List.Forall_impl; [|exact H2].
        intros p (o' & s' & Hin & Hr). exists o', s'.
        split; [now right|exact Hr].
      * constructor; [rewrite Hz; now eexists|].
        rewrite List.Forall_forall in *. intros p Hp.
        rewrite <- (Hsame p Hp). now apply H3.
      * intros q [<-|Hq]; [|now apply H4].
        rewrite (H5 _ Hnot). unfold unlink. now rewrite decide_True.
      * intros q Hq. rewrite H5 by (intros Hin; apply Hq; now right).
        unfold unlink.
        rewrite decide_False; [reflexivity|]. intros ->. apply Hq. now left.
      * simpl. rewrite Hz, H6, (sum_sizes_ext _ _ _ Hsame). lia.
Qed.
End LoopFacts.


(** X11. When the file of a reported duplicate is already gone, the loop
    stops there with [FileNotFoundError]: the triples after it are not
    processed, and nothing more is removed or counted. *)
Theorem deletion_loop_stops_on_missing_file
    (pre : list triple) (original dup : Path.t) (size : Z)
    (rest : list triple) (st st1 : Cleanup.state) (text : string) :
  Cleanup.loop pre st = (st1, None) ->
  find_browser_multi_saves [original; dup] = [dup] ->
  convert_size size "MB" = Return text ->
  Cleanup.files st1 dup = None ->
  exists msg,
    Cleanup.loop (pre ++ (original, dup, size) :: rest) st
    = (st1, Some (FileNotFoundError msg)).
Proof.
  intros Hpre Hms Hcs Hgone. rewrite loop_app, Hpre, loop_cons.
  unfold Cleanup.body. rewrite Hms, Hcs. simpl. rewrite Hgone. now eexists.
Qed.

Lemma deletion_loop_stops_on_missing_file_witness :
  exists msg,
    Cleanup.loop
      ([(Path.of_str "/a/f.txt", Path.of_str "/a/f (1).txt", 100)]
         ++ (Path.of_str "/a/f.txt", Path.of_str "/a/f (1).txt", 100)
         :: [(Path.of_str "/b/g.txt", Path.of_str "/b/g (1).txt", 7)])
      {| Cleanup.files := fun _ => Some 4096; Cleanup.deleted_amount := 0 |}
    = ({| Cleanup.files :=
            Cleanup.unlink (Path.of_str "/a/f (1).txt") (fun _ => Some 4096);
          Cleanup.deleted_amount := 0 + 4096 |},
       Some (FileNotFoundError msg)).
Proof.
  apply (deletion_loop_stops_on_missing_file
           [(Path.of_str "/a/f.txt", Path.of_str "/a/f (1).txt", 100)]
           (Path.of_str "/a/f.txt") (Path.of_str "/a/f (1).txt") 100
           [(Path.of_str "/b/g.txt", Path.of_str "/b/g (1).txt", 7)]
           {| Cleanup.files := fun _ => Some 4096; Cleanup.deleted_amount := 0 |}
           _ "0.10 MB"%string).
  - reflexivity.
  - vm_compute. reflexivity.
  - vm_compute. reflexivity.
  - reflexivity.
Defined.



(** One file of 1.5 MiB removed: the closing line reads 1,536.00 MB. *)
Example deleted_line_sample :
  Report.deleted_line
    (Cleanup.deleted_amount
       (fst (Cleanup.loop
               [(Path.of_str "/a/f.txt", Path.of_str "/a/f (1).txt", 1536)]
               {| Cleanup.files := fun _ => Some 1572864;
                  Cleanup.deleted_amount := 0 |})))
  = Return "Deleted 1,536.00 MB"%string.
Proof. vm_compute. reflexivity. Qed.

(** ** Reading the output of [du] *)

Section DuOutput.
Local Open Scope string_scope.

Lemma split_one_field sep s :
  all_chars (fun c => negb (Ascii.eqb c sep)) s = true ->
  PyStr.split sep s = [s].
Proof.
  induction s as [|c s IH]; [reflexivity|]. simpl.
  intros [Hc Hs]%andb_prop. apply negb_true_iff in Hc. rewrite Hc.
  now rewrite (IH Hs).
Qed.

Lemma split_field_then sep a b :
  all_chars (fun c => negb (Ascii.eqb c sep)) a = true ->
  PyStr.split sep (a ++ String sep b) = a :: PyStr.split sep b.
Proof.
  induction a as [|c a IH].
  - intros _. rewrite sapp_nil_l. simpl. now rewrite Ascii.eqb_refl.
  - rewrite sapp_cons. simpl.
    intros [Hc Ha]%andb_prop. apply negb_true_iff in Hc.
    rewrite Hc. now rewrite (IH Ha).
Qed.

Lemma strip_by_nothing cls s :
  all_chars (fun c => negb (cls c)) s = true -> PyStr.strip_by cls s = s.
Proof.
  intros H. unfold PyStr.strip_by.
  assert (Hl : PyStr.lstrip_by cls s = s).
  { destruct s as [|c s]; [reflexivity|]. simpl in *.
    apply andb_prop in H as [Hc _]. apply negb_true_iff in Hc.
    now rewrite Hc. }
  rewrite Hl. induction s as [|c s IH]; [reflexivity|]. simpl in *.
  apply andb_prop in H as [Hc Hs]. apply negb_true_iff in Hc.
  rewrite IH; [|exact Hs|].
  - destruct s; [now rewrite Hc|reflexivity].
  - destruct s as [|c' s]; [reflexivity|]. simpl in *.
    apply andb_prop in Hs as [Hc' _]. apply negb_true_iff in Hc'.
    now rewrite Hc'.
Qed.

Lemma digit_facts c :
  Re.digit c = true ->
  PyStr.int_space c = false /\ Ascii.eqb c "_" = false
  /\ Ascii.eqb c "009" = false /\ c <> "-"%char /\ c <> "+"%char.
Proof.
  destruct c as [[] [] [] [] [] [] [] []]; vm_compute; intros H;
    try discriminate H; repeat split; discriminate.
Qed.

Lemma digits_ok_digits d :
  all_chars Re.digit d = true -> PyStr.digits_ok true d = true.
Proof.
  induction d as [|c d IH]; [reflexivity|]. simpl.
  intros [Hc Hd]%andb_prop. change (PyStr.isdecimal c) with (Re.digit c).
  rewrite Hc. now apply IH.
Qed.

Lemma drop_underscores_digits d :
  all_chars Re.digit d = true -> PyStr.drop_underscores d = d.
Proof.
  induction d as [|c d IH]; [reflexivity|]. simpl.
  intros [Hc Hd]%andb_prop. destruct (digit_facts c Hc) as (_ & -> & _).
  now rewrite IH.
Qed.

(** [int] reads an unsigned run of digits as [int_of_digits] does. *)
Lemma int_digits d :
  d <> "" -> all_chars Re.digit d = true ->
  PyStr.int d = Some (PyStr.int_of_digits d)
  /\ PyStr.int (String "-" d) = Some (- PyStr.int_of_digits d).
Proof.
  intros Hne Hd.
  assert (Hs : all_chars (fun c => negb (PyStr.int_space c)) d = true).
  { apply (all_chars_impl Re.digit); [|exact Hd].
    intros c Hc. destruct (digit_facts c Hc) as (-> & _). reflexivity. }
  unfold PyStr.int. split.
  - rewrite strip_by_nothing by exact Hs.
    destruct d as [|c d]; [contradiction|].
    simpl in Hd. apply andb_prop in Hd as [Hc Hd].
    destruct (digit_facts c Hc) as (_ & _ & _ & Hm & Hp).
    assert (E : match String c d with
                | String "-" r => (-1, r)
                | String "+" r => (1, r)
                | r => (1, r)
                end = (1, String c d)).
    { destruct c as [[] [] [] [] [] [] [] []]; try reflexivity;
        [exfalso; now apply Hp|exfalso; now apply Hm]. }
    rewrite E. simpl PyStr.digits_ok.
    change (PyStr.isdecimal c) with (Re.digit c). rewrite Hc.
    rewrite (digits_ok_digits d Hd).
    rewrite drop_underscores_digits by (simpl; now rewrite Hc, Hd).
    f_equal; lia.
  - rewrite strip_by_nothing by (simpl; exact Hs).
    destruct d as [|c d]; [contradiction|].
    simpl in Hd. apply andb_prop in Hd as [Hc Hd].
    simpl PyStr.digits_ok.
    change (PyStr.isdecimal c) with (Re.digit c). rewrite Hc.
    rewrite (digits_ok_digits d Hd).
    rewrite drop_underscores_digits by (simpl; now rewrite Hc, Hd).
    f_equal; lia.
Qed.

(** [int(str(n))] is [n]. *)
Lemma int_of_int n : PyStr.int (PyStr.of_int n) = Some n.
Proof.
  destruct n as [|p|p]; [reflexivity| |].
  - destruct (int_of_digits_of_int (Z.pos p) ltac:(lia)) as (Hv & Hne & Hd).
    destruct (int_digits _ Hne Hd) as [-> _]. now rewrite Hv.
  - destruct (int_of_digits_of_int (Z.pos p) ltac:(lia)) as (Hv & Hne & Hd).
    change (PyStr.of_int (Z.neg p))
      with (String "-" (PyStr.of_int (Z.pos p))).
    destruct (int_digits _ Hne Hd) as [_ ->]. now rewrite Hv.
Qed.

Lemma of_int_no_tab n :
  all_chars (fun c => negb (Ascii.eqb c "009")) (PyStr.of_int n) = true.
Proof.
  assert (H : forall p, all_chars (fun c => negb (Ascii.eqb c "009"))
                          (PyStr.of_int (Z.pos p)) = true).
  { intros p.
    destruct (int_of_digits_of_int (Z.pos p) ltac:(lia)) as (_ & _ & Hd).
    apply (all_chars_impl Re.digit); [|exact Hd].
    intros c Hc. destruct (digit_facts c Hc) as (_ & _ & -> & _). reflexivity. }
  destruct n as [|p|p]; [reflexivity|apply H|].
  change (PyStr.of_int (Z.neg p)) with (String "-" (PyStr.of_int (Z.pos p))).
  simpl. apply H.
Qed.
End DuOutput.

Section InventoryFacts.
Variable resolve : Path.t -> Path.t.
Variable iterdir : Path.t -> result (list Path.t).
Variable is_dir : Path.t -> bool.
Variable run : string -> CompletedProcess.

(** The handler of [RuntimeError] in the loop never fires. *)
Lemma get_folder_size_never_runtime folder msg :
  get_folder_size run folder <> Raise (RuntimeError msg).
Proof.
  unfold get_folder_size. destruct (negb _); [discriminate|].
  destruct (PyStr.split "009" _) as [|size [|x [|y l]]]; try discriminate.
  destruct (PyStr.int size); discriminate.
Qed.

Lemma get_folder_size_entry folder entry :
  get_folder_size run folder = Return entry -> fst entry = folder.
Proof.
  unfold get_folder_size. destruct (negb _); [now intros [= <-]|].
  destruct (PyStr.split "009" _) as [|size [|x [|y l]]]; try discriminate.
  destruct (PyStr.int size); [now intros [= <-]|discriminate].
Qed.

Lemma collect_measures items : forall acc l,
  collect is_dir run items acc = Return l ->
  exists fs,
    l = acc ++ fs
    /\ List.map fst fs = List.filter is_dir items
    /\ Forall (fun entry => get_folder_size run (fst entry) = Return entry) fs.
Proof.
  induction items as [|x items IH]; intros acc l; simpl.
  - intros [= <-]. exists []. rewrite List.app_nil_r. repeat constructor.
  - destruct (is_dir x) eqn:Hx; [|apply IH].
    destruct (get_folder_size run x) as [entry|e] eqn:E.
    + intros H. destruct (IH _ _ H) as (fs & -> & Hm & Hall).
      pose proof (get_folder_size_entry x entry E) as Hf.
      exists (entry :: fs). rewrite <- List.app_assoc. simpl.
      split; [reflexivity|]. split; [now rewrite Hf, Hm|].
      constructor; [now rewrite Hf|exact Hall].
    + destruct e; try discriminate.
      exfalso. exact (get_folder_size_never_runtime x msg E).
Qed.

Lemma collect_raises pre : forall acc folder post e,
  (exists m, collect is_dir run pre acc = Return m) ->
  is_dir folder = true ->
  get_folder_size run folder = Raise e ->
  collect is_dir run (pre ++ folder :: post) acc = Raise e.
Proof.
  intros acc folder post e [m Hm] Hd He.
  rewrite collect_app, Hm. simpl. rewrite Hd, He.
  destruct e; try reflexivity.
  exfalso. exact (get_folder_size_never_runtime folder msg He).
Qed.
End InventoryFacts.



(** X14. A [du] that exits with 0 but prints no tab makes the inventory
    fail: the [ValueError] of the unpacking escapes [find_largest_folders],
    because the loop only catches [RuntimeError], which [get_folder_size]
    never raises. *)
Theorem malformed_du_output_escapes
    (resolve : Path.t -> Path.t) (iterdir : Path.t -> result (list Path.t))
    (is_dir : Path.t -> bool) (run : string -> CompletedProcess)
    (root_dir : Path.t) (pre : list Path.t) (folder : Path.t)
    (post : list Path.t) :
  iterdir (resolve root_dir) = Return (pre ++ folder :: post) ->
  is_dir folder = true ->
  returncode (run ("du -sk " ++ Path.to_str folder)%string) = 0 ->
  all_chars (fun c => negb (Ascii.eqb c "009"))
    (stdout (run ("du -sk " ++ Path.to_str folder)%string)) = true ->
  Forall (fun d => is_dir d = true ->
                   exists entry, get_folder_size run d = Return entry) pre ->
  (exists msg,
     find_largest_folders resolve iterdir is_dir run root_dir
     = Raise (ValueError msg))
  /\ (forall d msg, get_folder_size run d <> Raise (RuntimeError msg)).
Proof.
  intros Hls Hdir Hrc Hout Hpre. split; [|apply get_folder_size_never_runtime].
  assert (Hsize : exists msg, get_folder_size run folder = Raise (ValueError msg)).
  { unfold get_folder_size. rewrite Hrc. simpl negb. cbv iota.
    rewrite split_one_field by exact Hout. now eexists. }
  destruct Hsize as [msg Hsize]. exists msg.
  unfold find_largest_folders. rewrite Hls. simpl.
  rewrite (collect_raises is_dir run pre [] folder post _
             (collect_returns is_dir run pre [] Hpre) Hdir Hsize).
  reflexivity.
Qed.

Lemma malformed_du_output_escapes_witness :
  (exists msg,
     find_largest_folders Sample.same Sample.listing Sample.all_dirs
       (fun cmd => if String.eqb cmd "du -sk /r/b"
                   then Sample.succeeded "no size here"
                   else Sample.succeeded Sample.du_output)
       (Path.of_str "/r")
     = Raise (ValueError msg))
  /\ (forall d msg,
        get_folder_size
          (fun cmd => if String.eqb cmd "du -sk /r/b"
                      then Sample.succeeded "no size here"
                      else Sample.succeeded Sample.du_output) d
        <> Raise (RuntimeError msg)).
Proof.
  apply (malformed_du_output_escapes Sample.same Sample.listing
           Sample.all_dirs
           (fun cmd => if String.eqb cmd "du -sk /r/b"
                       then Sample.succeeded "no size here"
                       else Sample.succeeded Sample.du_output)
           (Path.of_str "/r")
           [Path.of_str "/r/a"] (Path.of_str "/r/b") [Path.of_str "/r/c"]).
  - reflexivity.
  - reflexivity.
  - reflexivity.
  - reflexivity.
  - constructor; [|constructor]. intros _. eexists. vm_compute. reflexivity.
Defined.

(** X15. Whenever the inventory returns, it lists exactly the directories
    of the listing, each once and with the entry its measurement gave, in
    non-increasing order of size; entries of equal size keep the order of
    the listing, and what is not a directory is left out. *)
Theorem inventory_lists_the_directories
    (resolve : Path.t -> Path.t) (iterdir : Path.t -> result (list Path.t))
    (is_dir : Path.t -> bool) (run : string -> CompletedProcess)
    (root_dir : Path.t) :
  match find_largest_folders resolve iterdir is_dir run root_dir with
  | Return l =>
      exists items measured,
        iterdir (resolve root_dir) = Return items
        /\ List.map fst measured = List.filter is_dir items
        /\ Forall (fun entry => get_folder_size run (fst entry) = Return entry)
                  measured
        /\ Permutation l measured
        /\ descending snd l
        /\ (forall k, List.filter (fun entry => snd entry =? k) l
                      = List.filter (fun entry => snd entry =? k) measured)
  | Raise _ => True
  end.
Proof.
  unfold find_largest_folders.
  destruct (iterdir (resolve root_dir)) as [items|e]; [|exact I]. simpl.
  destruct (collect is_dir run items []) as [fs|e] eqn:E; [|exact I]. simpl.
  destruct (collect_measures is_dir run items [] fs E) as (m & -> & Hm & Hall).
  exists items, m. simpl.
  split; [reflexivity|]. split; [exact Hm|]. split; [exact Hall|].
  split; [apply sort_desc_perm|]. split; [apply sort_desc_sorted|].
  intros k. apply filter_sort_desc.
Qed.

(** ** The printing functions *)

Section PrintFacts.
Import Report.

Lemma spaces_length n : String.length (spaces n) = n.
Proof. induction n as [|n IH]; [reflexivity|]. simpl. now rewrite IH. Qed.

Lemma rjust_length width s :
  String.length (rjust width s) = Nat.max width (String.length s).
Proof. unfold rjust. rewrite sapp_length, spaces_length. lia. Qed.

Lemma print_largest_invalid folders units :
  ~ valid_unit units ->
  print_largest_human_readable folders units =
    match folders with
    | [] => ([], None)
    | _ :: _ => ([], Some (ValueError ("Invalid unit: " ++ units)%string))
    end.
Proof.
  intros H. destruct folders as [|[folder size] rest]; [reflexivity|].
  simpl. now rewrite convert_size_invalid.
Qed.

Lemma print_duplicates_invalid duplicates units :
  ~ valid_unit units ->
  print_duplicates duplicates units =
    match duplicates with
    | [] => ([], None)
    | _ :: _ => ([], Some (ValueError ("Invalid unit: " ++ units)%string))
    end.
Proof.
  intros H. destruct duplicates as [|[[f1 f2] size] rest]; [reflexivity|].
  simpl. now rewrite convert_size_invalid.
Qed.

Lemma print_largest_complete folders units : forall out,
  print_largest_human_readable folders units = (out, None) ->
  Forall2 (fun entry line =>
             exists text,
               convert_size (snd entry) units = Return text
               /\ line = (rjust 10 text ++ ": " ++ Path.to_str (fst entry))%string)
          folders out.
Proof.
  induction folders as [|[folder size] rest IH]; intros out; simpl.
  - intros [= <-]. constructor.
  - destruct (convert_size size units) as [text|e] eqn:E; [|discriminate].
    destruct (print_largest_human_readable rest units) as [out' stopped].
    intros [= <- ->]. constructor; [|now apply IH].
    exists text. now split.
Qed.
End PrintFacts.

(** X16. With a unit other than KB, MB and GB the two printing functions
    print nothing: they raise the invalid-unit error at the first entry,
    and on an empty list they return without any error. *)
Theorem printing_with_invalid_unit
    (folders : list (Path.t * Z)) (duplicates : list triple) (units : string) :
  ~ valid_unit units ->
  fst (Report.print_largest_human_readable folders units) = []
  /\ fst (Report.print_duplicates duplicates units) = []
  /\ (snd (Report.print_largest_human_readable folders units) = None
      <-> folders = [])
  /\ (snd (Report.print_duplicates duplicates units) = None
      <-> duplicates = [])
  /\ (folders <> [] ->
      snd (Report.print_largest_human_readable folders units)
      = Some (ValueError ("Invalid unit: " ++ units)%string))
  /\ (duplicates <> [] ->
      snd (Report.print_duplicates duplicates units)
      = Some (ValueError ("Invalid unit: " ++ units)%string)).
Proof.
  intros H.
  rewrite (print_largest_invalid folders units H).
  rewrite (print_duplicates_invalid duplicates units H).
  destruct folders as [|f folders], duplicates as [|d duplicates]; simpl;
    repeat split; try reflexivity; try discriminate; try congruence;
    intros; try reflexivity; try discriminate; try contradiction.
Qed.

Lemma printing_with_invalid_unit_witness :
  fst (Report.print_largest_human_readable [(Path.of_str "/r/a", 12)] "TB") = []
  /\ fst (Report.print_duplicates [] "TB") = []
  /\ (snd (Report.print_largest_human_readable [(Path.of_str "/r/a", 12)] "TB")
      = None <-> [(Path.of_str "/r/a", 12)] = [])
  /\ (snd (Report.print_duplicates [] "TB") = None <-> @nil triple = [])
  /\ ([(Path.of_str "/r/a", 12)] <> [] ->
      snd (Report.print_largest_human_readable [(Path.of_str "/r/a", 12)] "TB")
      = Some (ValueError ("Invalid unit: " ++ "TB")%string))
  /\ (@nil triple <> [] ->
      snd (Report.print_duplicates [] "TB")
      = Some (ValueError ("Invalid unit: " ++ "TB")%string)).
Proof.
  apply (printing_with_invalid_unit [(Path.of_str "/r/a", 12)] [] "TB").
  intros [H|[H|H]]; discriminate.
Defined.

(** X17. When the folder listing is printed to the end, every line is the
    size text set flush right in at least ten columns, then [": "] and the
    folder; the text is never cut, and a folder whose size could not be
    measured (size -1) is shown in the default unit as [-0.00 GB]. *)
Theorem printed_folder_lines
    (folders : list (Path.t * Z)) (units : string) (out : list string) :
  Report.print_largest_human_readable folders units = (out, None) ->
  Forall2 (fun entry line =>
             exists text,
               convert_size (snd entry) units = Return text
               /\ line = (Report.rjust 10 text ++ ": "
                            ++ Path.to_str (fst entry))%string
               /\ String.length (Report.rjust 10 text)
                  = Nat.max 10 (String.length text)
               /\ (units = "GB"%string -> snd entry = -1 ->
                   line = ("  -0.00 GB: " ++ Path.to_str (fst entry))%string))
          folders out.
Proof.
  intros H. apply print_largest_complete in H.
  eapply List.Forall2_impl; [|exact H]. simpl.
  intros [folder size] line (text & Ht & ->). simpl in *.
  exists text. split; [exact Ht|]. split; [reflexivity|].
  split; [apply rjust_length|].
  intros -> ->. vm_compute in Ht. injection Ht as <-. reflexivity.
Qed.

Lemma printed_folder_lines_witness :
  Forall2 (fun entry line =>
             exists text,
               convert_size (snd entry) "GB" = Return text
               /\ line = (Report.rjust 10 text ++ ": "
                            ++ Path.to_str (fst entry))%string
               /\ String.length (Report.rjust 10 text)
                  = Nat.max 10 (String.length text)
               /\ ("GB"%string = "GB"%string -> snd entry = -1 ->
                   line = ("  -0.00 GB: " ++ Path.to_str (fst entry))%string))
          [(Path.of_str "/r/a", 123456789); (Path.of_str "/r/b", -1)]
          [" 117.74 GB: /r/a"%string; "  -0.00 GB: /r/b"%string].
Proof.
  apply (printed_folder_lines
           [(Path.of_str "/r/a", 123456789); (Path.of_str "/r/b", -1)] "GB"
           [" 117.74 GB: /r/a"%string; "  -0.00 GB: /r/b"%string]).
  vm_compute. reflexivity.
Defined.

(** ** From the text of the duplicate finder to the files removed *)

(** X18. The parser does not check that the two paths of a triple differ:
    two lines of one group that denote the same path are paired with each
    other; the deletion loop leaves such a triple alone. *)
Theorem self_pair_is_emitted_and_spared
    (l1 l2 : string) (st : Cleanup.state) (size : Z) :
  kind_of l1 = FilePath -> kind_of l2 = FilePath ->
  one_line l1 = true -> one_line l2 = true ->
  Path.of_str (PyStr.strip l1) = Path.of_str (PyStr.strip l2) ->
  Parser.parse (unlines [l1; l2])
    = [(Path.of_str (PyStr.strip l1), Path.of_str (PyStr.strip l1), 0)]
  /\ Cleanup.body st
       (Path.of_str (PyStr.strip l1), Path.of_str (PyStr.strip l1), size)
     = (st, None).
Proof.
  intros H1 H2 Ho1 Ho2 Hp. split.
  - unfold Parser.parse.
    rewrite split_unlines by (try discriminate; repeat constructor; assumption).
    unfold Parser.run. simpl.
    rewrite (step_path _ l1 H1), (step_path _ l2 H2). simpl.
    now rewrite <- Hp.
  - unfold Cleanup.body.
    destruct (two_paths (Path.of_str (PyStr.strip l1))
                (Path.of_str (PyStr.strip l1))) as [->|[_ Hne]];
      [reflexivity|contradiction].
Qed.

Lemma self_pair_is_emitted_and_spared_witness :
  Parser.parse (unlines ["/a//f (1).txt"; "/a/f (1).txt  "])
    = [(Path.of_str (PyStr.strip "/a//f (1).txt"),
        Path.of_str (PyStr.strip "/a//f (1).txt"), 0)]
  /\ Cleanup.body
       {| Cleanup.files := fun _ => Some 1; Cleanup.deleted_amount := 0 |}
       (Path.of_str (PyStr.strip "/a//f (1).txt"),
        Path.of_str (PyStr.strip "/a//f (1).txt"), 5)
     = ({| Cleanup.files := fun _ => Some 1; Cleanup.deleted_amount := 0 |},
        None).
Proof.
  apply (self_pair_is_emitted_and_spared "/a//f (1).txt" "/a/f (1).txt  "
           {| Cleanup.files := fun _ => Some 1; Cleanup.deleted_amount := 0 |}
           5); reflexivity.
Defined.

(** X19. From the text to the disk: whatever the output of the duplicate
    finder and the state of the files, a file is touched by the deletion
    loop only if its path is listed in a group after the group's first
    path, its name has the multi-save form, and the first path of that
    group carries its canonical name. *)
Theorem only_listed_copies_are_removed
    (out : string) (st : Cleanup.state) (q : Path.t) :
  Cleanup.files (fst (Cleanup.loop (Parser.parse out) st)) q
    <> Cleanup.files st q ->
  exists first later g1 g2,
    (first :: later = members (fst (groups_of (PyStr.split "010" out)))
     \/ exists g, In g (snd (groups_of (PyStr.split "010" out)))
                  /\ first :: later = members (body g))
    /\ In q later
    /\ Re.multi_save_pattern (Path.name q) = Some (g1, g2)
    /\ Path.name first = (g1 ++ g2)%string.
Proof.
  intros Hq.
  destruct (Cleanup.loop (Parser.parse out) st) as [st' e] eqn:E. simpl in Hq.
  destruct (loop_removed _ _ _ _ E) as (removed & _ & H2 & _ & _ & H5 & _).
  destruct (List.in_dec Path.eq_dec q removed) as [Hin|Hout];
    [|exfalso; apply Hq; now apply H5].
  rewrite List.Forall_forall in H2.
  destruct (H2 q Hin) as (o & size & Ht & Hms).
  destruct (parse_member_shape out _ Ht) as (first & later & Hg & Hf & Hl).
  simpl in Hf, Hl. subst o.
  rewrite pair_result in Hms.
  destruct (Re.multi_save_pattern (Path.name q)) as [[g1 g2]|];
    [|discriminate].
  destruct (String.eqb_spec (Path.name first) (g1 ++ g2)%string) as [Hn|];
    [|discriminate].
  exists first, later, g1, g2. auto.
Qed.

Lemma only_listed_copies_are_removed_witness :
  exists first later g1 g2,
    (first :: later
       = members (fst (groups_of (PyStr.split "010" Sample.fdupes_output)))
     \/ exists g,
          In g (snd (groups_of (PyStr.split "010" Sample.fdupes_output)))
          /\ first :: later = members (body g))
    /\ In (Path.of_str "/a/f (2).txt") later
    /\ Re.multi_save_pattern (Path.name (Path.of_str "/a/f (2).txt"))
       = Some (g1, g2)
    /\ Path.name first = (g1 ++ g2)%string.
Proof.
  apply (only_listed_copies_are_removed Sample.fdupes_output
           {| Cleanup.files := fun _ => Some 4096;
              Cleanup.deleted_amount := 0 |}
           (Path.of_str "/a/f (2).txt")).
  vm_compute. discriminate.
Defined.
